(** * croppy: centered and region-of-interest crops of N-dimensional arrays

    A shallow embedding of [src/croppy/croppy.py].

    - A NumPy [ndarray] is modelled by its [shape] (a list of Python ints)
      and an element function [get] from index tuples to elements: basic
      slicing in NumPy produces a view, i.e. an offset of the same storage,
      which is exactly a re-indexing of [get].
    - Python exceptions become the [Err] branch of a small error monad;
      [ValueError] and [IndexError] carry the message text.
    - [slice] objects are pairs of optional bounds (step is always 1 here),
      resolved against an axis length as [slice.indices] does. *)

From Stdlib Require Import ZArith String Bool Lia List.
Import ListNotations.
Open Scope Z_scope.

(** ** Exceptions and the error monad *)

Inductive error :=
| ValueError (msg : string)
| IndexError (msg : string)
(** The exception the spec names for an empty ROI projection; [croppy.py]
    defines no such exception, and nothing in it raises one. *)
| EmptyRegionError.

Inductive result (A : Type) :=
| Ok (a : A)
| Err (e : error).
Arguments Ok {A} a.
Arguments Err {A} e.

Definition bind {A B : Type} (m : result A) (f : A -> result B) : result B :=
  match m with
  | Ok a => f a
  | Err e => Err e
  end.

Notation "x <- m ;; k" := (bind m (fun x => k))
  (at level 61, m at next level, right associativity).

(** The three messages raised by [croppy.py] itself. *)
Definition DimensionMismatch : error :=
  ValueError "The shape argument must have the same number of dimensions as the array".
Definition ShapeTooLarge : error :=
  ValueError "The target shape must be smaller than, or equal to the provided array shape".
Definition ShapeMismatch : error :=
  ValueError "The array and roi_mask must have the same shape".

(** The error NumPy raises for [.min()] / [.max()] of a zero-size array. *)
Definition zero_size_min : error :=
  ValueError "zero-size array to reduction operation minimum which has no identity".
Definition zero_size_max : error :=
  ValueError "zero-size array to reduction operation maximum which has no identity".
Definition index_out_of_bounds : error :=
  IndexError "index is out of bounds".
Definition too_many_indices : error :=
  IndexError "too many indices for array".

(** ** Small list helpers (NumPy element-wise arithmetic on equal-length
    vectors, Python ranges and list item assignment) *)

Fixpoint zip_with {A B C : Type} (f : A -> B -> C) (l1 : list A) (l2 : list B)
  : list C :=
  match l1, l2 with
  | x :: l1', y :: l2' => f x y :: zip_with f l1' l2'
  | _, _ => []
  end.

(** [range(n)] as Python ints. *)
Definition zrange (n : Z) : list Z := map Z.of_nat (seq 0 (Z.to_nat n)).

(** Python sequence indexing [l[i]], negative indices counting from the end. *)
Definition py_getitem {A : Type} (l : list A) (i : Z) : result A :=
  let j := if i <? 0 then i + Z.of_nat (length l) else i in
  if j <? 0 then Err index_out_of_bounds
  else match nth_error l (Z.to_nat j) with
       | Some x => Ok x
       | None => Err index_out_of_bounds
       end.

Fixpoint replace_nth {A : Type} (l : list A) (n : nat) (x : A) : list A :=
  match l, n with
  | [], _ => []
  | _ :: l', O => x :: l'
  | y :: l', S n' => y :: replace_nth l' n' x
  end.

(** Python list item assignment [l[i] = x]. *)
Definition py_setitem {A : Type} (l : list A) (i : Z) (x : A) : result (list A) :=
  let j := if i <? 0 then i + Z.of_nat (length l) else i in
  if (j <? 0) || (Z.of_nat (length l) <=? j) then Err index_out_of_bounds
  else Ok (replace_nth l (Z.to_nat j) x).

(** ** Arrays, slices and basic indexing *)

Section Arrays.
Variable E : Type.

Record ndarray := mk_ndarray {
  shape : list Z;
  get : list Z -> E
}.

Definition ndim (a : ndarray) : nat := length (shape a).

End Arrays.
Arguments mk_ndarray {E} shape get.
Arguments shape {E} _.
Arguments get {E} _ _.
Arguments ndim {E} _.

(** A [slice(start, stop)] with step 1; [None] is an omitted bound. *)
Record slice := mk_slice {
  sl_start : option Z;
  sl_stop : option Z
}.

(** [np.s_[:]] *)
Definition full_slice : slice := mk_slice None None.

(** One bound of [slice.indices(n)] for step 1. *)
Definition clamp_bound (b : Z) (n : Z) : Z :=
  if b <? 0 then Z.max (b + n) 0 else Z.min b n.

(** [slice.indices(n)] for step 1: the resolved [(start, stop)]. *)
Definition slice_indices (s : slice) (n : Z) : Z * Z :=
  (match sl_start s with None => 0 | Some b => clamp_bound b n end,
   match sl_stop s with None => n | Some b => clamp_bound b n end).

Definition range_len (r : Z * Z) : Z := Z.max 0 (snd r - fst r).

(** [array[slices]] for a tuple of slices: a view whose axis [i] is the
    resolved range of slice [i]; missing trailing slices are [:]. *)
Definition index_slices {E : Type} (array : ndarray E) (slices : list slice)
  : result (ndarray E) :=
  if (ndim array <? length slices)%nat then Err too_many_indices
  else
    let slices' := slices ++ repeat full_slice (ndim array - length slices) in
    let bounds := zip_with slice_indices slices' (shape array) in
    Ok (mk_ndarray (map range_len bounds)
                   (fun idx => get array (zip_with Z.add (map fst bounds) idx))).

(** An index tuple inside a shape. *)
Definition valid_index (sh : list Z) (idx : list Z) : Prop :=
  length idx = length sh /\
  forall i, (i < length sh)%nat -> 0 <= nth i idx 0 < nth i sh 0.

(** [np.array_equal]: same shape, same element at every valid index. *)
Definition array_equal {E : Type} (a b : ndarray E) : Prop :=
  shape a = shape b /\
  forall idx, valid_index (shape a) idx -> get a idx = get b idx.

(** NumPy arrays have non-negative extents. *)
Definition wf_shape (sh : list Z) : Prop := Forall (fun n => 0 <= n) sh.

(** ** [crop_to_shape] *)

(** The two return forms selected by [return_slices]. *)
Definition crop_output (E : Type) : Type := (ndarray E + (ndarray E * list slice))%type.

Definition output_array {E : Type} (o : crop_output E) : ndarray E :=
  match o with inl a => a | inr (a, _) => a end.

Definition crop_to_shape {E : Type} (array : ndarray E) (shape' : list Z)
  (return_slices : bool) : result (crop_output E) :=
  if negb (Nat.eqb (length shape') (ndim array)) then Err DimensionMismatch
  else
    let target_shape := shape' in
    let array_shape := shape array in
    if existsb (fun b => b) (zip_with Z.gtb target_shape array_shape)
    then Err ShapeTooLarge
    else
      let delta := zip_with Z.sub array_shape target_shape in
      let crop_start := map (fun d => d / 2) delta in
      let crop_end := zip_with Z.sub array_shape (zip_with Z.sub delta crop_start) in
      let slices := zip_with (fun start end_ => mk_slice (Some start) (Some end_))
                             crop_start crop_end in
      cropped_array <- index_slices array slices ;;
      if return_slices then Ok (inr (cropped_array, slices))
      else Ok (inl cropped_array).

(** ** [crop_roi] *)

(** The [axes] argument: [None], an [int], or a [tuple] of ints. *)
Inductive axes_arg :=
| AxesNone
| AxesInt (k : Z)
| AxesTuple (ks : list Z).

(** NumPy integer [%]: floored modulo, and [0] for a zero divisor. *)
Definition np_mod (k n : Z) : Z := if n =? 0 then 0 else k mod n.

(** Lines 99-103: [axes_indices]. *)
Definition axes_indices_of (axes : axes_arg) (ndim : nat) : list Z :=
  match axes with
  | AxesNone => zrange (Z.of_nat ndim)
  | AxesInt k => map (fun i => np_mod i (Z.of_nat ndim)) [k]
  | AxesTuple ks => map (fun i => np_mod i (Z.of_nat ndim)) ks
  end.

(** All index tuples of a shape in row-major (C) order. *)
Fixpoint all_indices (sh : list Z) : list (list Z) :=
  match sh with
  | [] => [[]]
  | n :: rest => flat_map (fun i => map (cons i) (all_indices rest)) (zrange n)
  end.

(** [np.argwhere(mask)]: the true positions in row-major order. *)
Definition argwhere (mask : ndarray bool) : list (list Z) :=
  filter (get mask) (all_indices (shape mask)).

(** [np.argwhere(mask).T]: one row per axis, the axis coordinates of every
    true position. *)
Definition argwhere_T (mask : ndarray bool) : list (list Z) :=
  map (fun a => map (fun p => nth a p 0) (argwhere mask)) (seq 0 (ndim mask)).

(** [.min()] and [.max()] of a 1-D integer array. *)
Definition np_min (l : list Z) : result Z :=
  match l with
  | [] => Err zero_size_min
  | x :: xs => Ok (fold_left Z.min xs x)
  end.

Definition np_max (l : list Z) : result Z :=
  match l with
  | [] => Err zero_size_max
  | x :: xs => Ok (fold_left Z.max xs x)
  end.

Definition _full_array_slices {E : Type} (array : ndarray E) : list slice :=
  repeat full_slice (ndim array).

(** The [for dimension in axes_indices] loop of lines 108-111. *)
Fixpoint roi_loop (roi_indices : list (list Z)) (slices : list slice)
  (axes_indices : list Z) : result (list slice) :=
  match axes_indices with
  | [] => Ok slices
  | dimension :: rest =>
      row <- py_getitem roi_indices dimension ;;
      start <- np_min row ;;
      mx <- np_max row ;;
      slices' <- py_setitem slices dimension (mk_slice (Some start) (Some (mx + 1))) ;;
      roi_loop roi_indices slices' rest
  end.

Definition list_Z_eqb (l1 l2 : list Z) : bool :=
  if list_eq_dec Z.eq_dec l1 l2 then true else false.

Definition crop_roi {E : Type} (array : ndarray E) (roi_mask : ndarray bool)
  (axes : axes_arg) (return_slices : bool) : result (crop_output E) :=
  if negb (list_Z_eqb (shape array) (shape roi_mask)) then Err ShapeMismatch
  else
    let axes_indices := axes_indices_of axes (ndim array) in
    let roi_indices := argwhere_T roi_mask in
    let slices := _full_array_slices array in
    slices <- roi_loop roi_indices slices axes_indices ;;
    cropped_array <- index_slices array slices ;;
    if return_slices then Ok (inr (cropped_array, slices))
    else Ok (inl cropped_array).


(** ** Auxiliary definitions for the proofs *)

(** The slice [crop_to_shape] builds for an axis of length [n] and target [s]. *)
Definition centered_slice (n s : Z) : slice :=
  mk_slice (Some ((n - s) / 2)) (Some (n - ((n - s) - (n - s) / 2))).

(** The slice the loop assigns for a non-empty coordinate row. *)
Definition bbox_slice (row : list Z) : slice :=
  match row with
  | [] => full_slice
  | x :: xs => mk_slice (Some (fold_left Z.min xs x)) (Some (fold_left Z.max xs x + 1))
  end.

(** ** Concrete arrays *)

(** [np.arange(100).reshape((10, 10))] *)
Definition arange_10x10 : ndarray Z :=
  mk_ndarray [10; 10] (fun idx => nth 0 idx 0 * 10 + nth 1 idx 0).

(** [arr = np.zeros((5, 5)); arr[1:4, 2:5] = 1] *)
Definition arr_5x5 : ndarray Z :=
  mk_ndarray [5; 5] (fun idx =>
    if (1 <=? nth 0 idx 0) && (nth 0 idx 0 <? 4) && (2 <=? nth 1 idx 0)
       && (nth 1 idx 0 <? 5) then 1 else 0).

(** [mask = arr.astype(bool)] *)
Definition mask_5x5 : ndarray bool :=
  mk_ndarray [5; 5] (fun idx => negb (get arr_5x5 idx =? 0)).

(** An all-false mask of shape [(5, 5)]. *)
Definition empty_mask_5x5 : ndarray bool := mk_ndarray [5; 5] (fun _ => false).

(** The output's shape and the slices resolved against the input's shape. *)
Definition crop_summary {E : Type} (sh : list Z) (r : result (crop_output E))
  : option (list Z * list (Z * Z)) :=
  match r with
  | Ok (inr (b, slices)) => Some (shape b, zip_with slice_indices slices sh)
  | _ => None
  end.

Ltac wf_shape_tac :=
  unfold wf_shape; repeat (apply Forall_cons; [lia|]); apply Forall_nil.

(** Per-axis bounds on a 2-D shape. *)
Ltac nth_bound_tac :=
  let i := fresh "i" in let Hi := fresh "Hi" in
  intros i Hi; destruct i as [|[|i]]; simpl in *; lia.

(** ** General list facts *)

Lemma length_zip_with {A B C : Type} (f : A -> B -> C) l1 l2 :
  length (zip_with f l1 l2) = Nat.min (length l1) (length l2).
Proof.
  revert l2; induction l1 as [|x l1 IH]; intros [|y l2]; simpl; auto.
Qed.

Lemma nth_zip_with {A B C : Type} (f : A -> B -> C) l1 l2 i d1 d2 d :
  (i < length l1)%nat -> (i < length l2)%nat ->
  nth i (zip_with f l1 l2) d = f (nth i l1 d1) (nth i l2 d2).
Proof.
  revert l2 i; induction l1 as [|x l1 IH]; intros [|y l2] i H1 H2;
    simpl in *; try lia.
  destruct i; [reflexivity|]. apply IH; lia.
Qed.

Lemma Forall2_of_nth {A B : Type} (P : A -> B -> Prop) l1 l2 da db :
  length l1 = length l2 ->
  (forall i, (i < length l1)%nat -> P (nth i l1 da) (nth i l2 db)) ->
  Forall2 P l1 l2.
Proof.
  revert l2; induction l1 as [|x l1 IH]; intros [|y l2] Hl H; simpl in *;
    try discriminate; constructor.
  - apply (H 0%nat); lia.
  - apply IH; [lia|]. intros i Hi. apply (H (S i)); lia.
Qed.

Lemma zip_with_add_zeros (sh idx : list Z) :
  length idx = length sh ->
  zip_with Z.add (map (fun _ => 0) sh) idx = idx.
Proof.
  revert idx; induction sh as [|n sh IH]; intros [|x idx] H; simpl in *;
    try discriminate; auto.
  rewrite IH by lia. reflexivity.
Qed.

(** ** Basic indexing *)

Lemma index_slices_ok {E : Type} (array : ndarray E) (slices : list slice) :
  length slices = ndim array ->
  index_slices array slices =
  Ok (mk_ndarray (map range_len (zip_with slice_indices slices (shape array)))
        (fun idx => get array
           (zip_with Z.add (map fst (zip_with slice_indices slices (shape array))) idx))).
Proof.
  intros H. unfold index_slices. rewrite H, Nat.ltb_irrefl, Nat.sub_diag.
  simpl. rewrite app_nil_r. reflexivity.
Qed.

(** ** The centered slice of one axis *)


Lemma crop_slices_eq (sh S : list Z) :
  zip_with (fun start end_ => mk_slice (Some start) (Some end_))
    (map (fun d => d / 2) (zip_with Z.sub sh S))
    (zip_with Z.sub sh (zip_with Z.sub (zip_with Z.sub sh S)
                          (map (fun d => d / 2) (zip_with Z.sub sh S))))
  = zip_with centered_slice sh S.
Proof.
  revert S; induction sh as [|n sh IH]; intros [|s S]; simpl; auto.
  rewrite IH. reflexivity.
Qed.

Lemma half_bounds (d : Z) : 0 <= d -> 0 <= d / 2 /\ d / 2 <= d /\ d - 2 * (d / 2) <= 1.
Proof.
  intros Hd. pose proof (Z.div_mod d 2 ltac:(lia)).
  pose proof (Z.mod_pos_bound d 2 ltac:(lia)). lia.
Qed.

Lemma centered_slice_indices (n s : Z) :
  0 <= s <= n ->
  slice_indices (centered_slice n s) n = ((n - s) / 2, n - ((n - s) - (n - s) / 2)).
Proof.
  intros Hs. destruct (half_bounds (n - s)) as (H1 & H2 & _); [lia|].
  unfold slice_indices, centered_slice, clamp_bound; simpl.
  destruct ((n - s) / 2 <? 0) eqn:E1; [apply Z.ltb_lt in E1; lia|].
  destruct (n - (n - s - (n - s) / 2) <? 0) eqn:E2; [apply Z.ltb_lt in E2; lia|].
  f_equal; lia.
Qed.

Lemma centered_shape (sh S : list Z) :
  Forall2 (fun s n => 0 <= s <= n) S sh ->
  map range_len (zip_with slice_indices (zip_with centered_slice sh S) sh) = S.
Proof.
  induction 1 as [|s n S sh Hs _ IH]; simpl; auto.
  rewrite IH, centered_slice_indices by lia.
  destruct (half_bounds (n - s)) as (H1 & H2 & _); [lia|].
  unfold range_len; simpl. f_equal. lia.
Qed.

Lemma gtb_none (S sh : list Z) :
  Forall2 Z.le S sh -> existsb (fun b => b) (zip_with Z.gtb S sh) = false.
Proof.
  induction 1 as [|s n S sh Hs _ IH]; simpl; auto.
  rewrite IH. destruct (Z.gtb_spec s n); [lia|reflexivity].
Qed.

Lemma gtb_some (S sh : list Z) i :
  length S = length sh -> (i < length S)%nat -> nth i S 0 > nth i sh 0 ->
  existsb (fun b => b) (zip_with Z.gtb S sh) = true.
Proof.
  revert sh i; induction S as [|s S IH]; intros [|n sh] i Hl Hi Hgt;
    simpl in *; try lia.
  destruct i as [|i].
  - destruct (Z.gtb_spec s n); [reflexivity|lia].
  - rewrite (IH sh i) by lia. apply orb_true_r.
Qed.

(** [crop_to_shape] on a valid target: the centered slices, applied. *)
Lemma crop_to_shape_ok {E : Type} (array : ndarray E) (S : list Z) rs :
  length S = ndim array -> Forall2 Z.le S (shape array) ->
  crop_to_shape array S rs =
  let slices := zip_with centered_slice (shape array) S in
  let b := mk_ndarray (map range_len (zip_with slice_indices slices (shape array)))
        (fun idx => get array
           (zip_with Z.add (map fst (zip_with slice_indices slices (shape array))) idx)) in
  Ok (if rs then inr (b, slices) else inl b).
Proof.
  intros Hl Hle. unfold crop_to_shape. rewrite Hl, Nat.eqb_refl. simpl.
  rewrite gtb_none by exact Hle. rewrite crop_slices_eq.
  rewrite index_slices_ok.
  - simpl. destruct rs; reflexivity.
  - rewrite length_zip_with. unfold ndim in *. lia.
Qed.

(** A valid target: same rank, non-negative, no larger than the array. *)
Lemma valid_target_Forall2 (S sh : list Z) :
  length S = length sh -> wf_shape S ->
  (forall i, (i < length S)%nat -> nth i S 0 <= nth i sh 0) ->
  Forall2 (fun s n => 0 <= s <= n) S sh.
Proof.
  intros Hl Hwf Hle. apply (Forall2_of_nth _ _ _ 0 0); auto.
  intros i Hi. split; [|auto].
  unfold wf_shape in Hwf. rewrite Forall_nth in Hwf. apply Hwf; auto.
Qed.

Lemma Forall2_le_weaken (S sh : list Z) :
  Forall2 (fun s n => 0 <= s <= n) S sh -> Forall2 Z.le S sh.
Proof. intros H. eapply Forall2_impl; [|exact H]. simpl; lia. Qed.

Lemma centered_starts (sh S : list Z) :
  Forall2 (fun s n => 0 <= s <= n) S sh ->
  map fst (zip_with slice_indices (zip_with centered_slice sh S) sh)
  = zip_with (fun n s => (n - s) / 2) sh S.
Proof.
  induction 1 as [|s n S sh Hs _ IH]; [reflexivity|].
  cbn [zip_with map]. rewrite IH, centered_slice_indices by lia. reflexivity.
Qed.

Lemma Forall2_length_r {A B : Type} (P : A -> B -> Prop) l1 l2 :
  Forall2 P l1 l2 -> length l1 = length l2.
Proof. induction 1; simpl; auto. Qed.

(** Cropping an array to its own shape gives the array back. *)
Lemma crop_to_own_shape {E : Type} (X : ndarray E) rs :
  wf_shape (shape X) ->
  exists B, crop_to_shape X (shape X) rs =
            Ok (if rs then inr (B, zip_with centered_slice (shape X) (shape X)) else inl B)
         /\ array_equal B X.
Proof.
  intros Hwf.
  assert (HF : Forall2 (fun s n => 0 <= s <= n) (shape X) (shape X)).
  { apply valid_target_Forall2; auto. intros; lia. }
  rewrite crop_to_shape_ok; [|reflexivity|apply Forall2_le_weaken; exact HF].
  eexists; split; [reflexivity|]. split; simpl.
  - apply centered_shape; exact HF.
  - intros idx [Hlen _]. rewrite centered_starts by exact HF.
    rewrite centered_shape in Hlen by exact HF.
    replace (zip_with (fun n s => (n - s) / 2) (shape X) (shape X))
      with (map (fun _ : Z => 0) (shape X)).
    + rewrite zip_with_add_zeros by exact Hlen. reflexivity.
    + clear. induction (shape X) as [|n l IH]; simpl; auto.
      rewrite IH, Z.sub_diag. reflexivity.
Qed.

Lemma nth_centered_indices (sh S : list Z) i :
  Forall2 (fun s n => 0 <= s <= n) S sh -> (i < length S)%nat ->
  nth i (zip_with centered_slice sh S) full_slice
  = centered_slice (nth i sh 0) (nth i S 0).
Proof.
  intros HF Hi. pose proof (Forall2_length_r _ _ _ HF) as Hl.
  apply nth_zip_with; lia.
Qed.

(** ** Claims about [crop_to_shape] *)

(** C1: for a target shape [S] (non-negative extents) of the array's rank,
    with [S[i] <= A.shape[i]] on every axis, [crop_to_shape A S] succeeds
    (whatever [return_slices] is) and the cropped array has shape exactly [S]. *)
Theorem crop_to_shape_result_shape {E : Type} (A : ndarray E) (S : list Z)
  (return_slices : bool) :
  length S = ndim A -> wf_shape S ->
  (forall i, (i < length S)%nat -> nth i S 0 <= nth i (shape A) 0) ->
  exists out, crop_to_shape A S return_slices = Ok out /\ shape (output_array out) = S.
Proof.
  intros Hl Hwf Hle.
  pose proof (valid_target_Forall2 S (shape A) Hl Hwf Hle) as HF.
  rewrite crop_to_shape_ok by (auto using Forall2_le_weaken).
  eexists; split; [reflexivity|].
  destruct return_slices; simpl; apply centered_shape; exact HF.
Qed.

(** C2: centering. On each axis [i], with [delta = A.shape[i] - S[i]], the
    slice used is [(delta // 2, A.shape[i] - (delta - delta // 2))]; it
    resolves to exactly that range, so [delta // 2] leading and
    [delta - delta // 2] trailing elements are discarded, one more trailing
    than leading when [delta] is odd; the cropped array reads the source
    shifted by the leading offsets. *)
Theorem crop_to_shape_centering {E : Type} (A : ndarray E) (S : list Z) :
  length S = ndim A -> wf_shape S ->
  (forall i, (i < length S)%nat -> nth i S 0 <= nth i (shape A) 0) ->
  exists B slices,
    crop_to_shape A S true = Ok (inr (B, slices)) /\
    length slices = length S /\
    (forall i, (i < length S)%nat ->
       let n := nth i (shape A) 0 in
       let delta := n - nth i S 0 in
       nth i slices full_slice = mk_slice (Some (delta / 2)) (Some (n - (delta - delta / 2))) /\
       slice_indices (nth i slices full_slice) n = (delta / 2, n - (delta - delta / 2)) /\
       fst (slice_indices (nth i slices full_slice) n) = delta / 2 /\
       n - snd (slice_indices (nth i slices full_slice) n) = delta - delta / 2 /\
       (Z.odd delta = true -> delta - delta / 2 = delta / 2 + 1)) /\
    (forall idx, get B idx =
       get A (zip_with Z.add (zip_with (fun n s => (n - s) / 2) (shape A) S) idx)).
Proof.
  intros Hl Hwf Hle.
  pose proof (valid_target_Forall2 S (shape A) Hl Hwf Hle) as HF.
  rewrite crop_to_shape_ok by (auto using Forall2_le_weaken).
  do 2 eexists; split; [reflexivity|]. split; [|split].
  - rewrite length_zip_with. unfold ndim in Hl. lia.
  - intros i Hi. cbv zeta.
    rewrite nth_centered_indices by assumption.
    set (n := nth i (shape A) 0).
    assert (Hsn : 0 <= nth i S 0 <= n).
    { split; [|apply Hle; exact Hi].
      unfold wf_shape in Hwf. rewrite Forall_nth in Hwf. apply Hwf; exact Hi. }
    rewrite centered_slice_indices by exact Hsn.
    set (delta := n - nth i S 0).
    destruct (half_bounds delta) as (H1 & H2 & H3); [unfold delta; lia|].
    repeat split; simpl; try lia.
    intros Hodd. apply Z.odd_spec in Hodd. destruct Hodd as [b Hb].
    pose proof (Z.div_mod delta 2 ltac:(lia)).
    pose proof (Z.mod_pos_bound delta 2 ltac:(lia)). lia.
  - intros idx. simpl. rewrite centered_starts by exact HF. reflexivity.
Qed.

(** C5: [crop_to_shape] fails with [DimensionMismatch] when the target's
    rank differs from the array's (whatever the extents), with
    [ShapeTooLarge] when the ranks agree and some [S[i] > A.shape[i]], and
    succeeds when neither holds. *)
Theorem crop_to_shape_errors {E : Type} (A : ndarray E) (S : list Z) (return_slices : bool) :
  (length S <> ndim A -> crop_to_shape A S return_slices = Err DimensionMismatch) /\
  (length S = ndim A ->
   (exists i, (i < length S)%nat /\ nth i S 0 > nth i (shape A) 0) ->
   crop_to_shape A S return_slices = Err ShapeTooLarge) /\
  (length S = ndim A ->
   (forall i, (i < length S)%nat -> nth i S 0 <= nth i (shape A) 0) ->
   exists out, crop_to_shape A S return_slices = Ok out).
Proof.
  split; [|split].
  - intros Hne. unfold crop_to_shape.
    destruct (Nat.eqb_spec (length S) (ndim A)); [contradiction|reflexivity].
  - intros Hl [i [Hi Hgt]]. unfold crop_to_shape. rewrite Hl, Nat.eqb_refl. simpl.
    rewrite (gtb_some S (shape A) i) by (unfold ndim in Hl; auto). reflexivity.
  - intros Hl Hle. eexists. apply crop_to_shape_ok; [exact Hl|].
    apply (Forall2_of_nth _ _ _ 0 0); [exact Hl|exact Hle].
Qed.

(** C9: idempotence. Cropping the result of a centered crop to [S] again
    to [S] gives an equal array; cropping an array whose shape already is
    [S] uses the full range on every axis and returns the array unchanged. *)
Theorem crop_to_shape_idempotent {E : Type} (A : ndarray E) (S : list Z) :
  length S = ndim A -> wf_shape S ->
  (forall i, (i < length S)%nat -> nth i S 0 <= nth i (shape A) 0) ->
  (exists B C, crop_to_shape A S false = Ok (inl B) /\
               crop_to_shape B S false = Ok (inl C) /\ array_equal C B) /\
  (shape A = S ->
   exists B slices, crop_to_shape A S true = Ok (inr (B, slices)) /\
     (forall i, (i < length S)%nat ->
        slice_indices (nth i slices full_slice) (nth i S 0) = (0, nth i S 0)) /\
     array_equal B A).
Proof.
  intros Hl Hwf Hle.
  pose proof (valid_target_Forall2 S (shape A) Hl Hwf Hle) as HF.
  split.
  - destruct (crop_to_shape_result_shape A S false Hl Hwf Hle) as [out [Hout Hsh]].
    destruct out as [B|[B sl]]; simpl in Hsh.
    2:{ rewrite crop_to_shape_ok in Hout by (auto using Forall2_le_weaken).
        discriminate. }
    destruct (crop_to_own_shape B false) as [C [HC HCB]]; [rewrite Hsh; exact Hwf|].
    rewrite Hsh in HC. exists B, C. auto.
  - intros HA. subst S.
    destruct (crop_to_own_shape A true Hwf) as [B [HB HBA]].
    exists B, (zip_with centered_slice (shape A) (shape A)). split; [exact HB|].
    split; [|exact HBA].
    intros i Hi. rewrite nth_centered_indices by assumption.
    assert (0 <= nth i (shape A) 0).
    { unfold wf_shape in Hwf. rewrite Forall_nth in Hwf. apply Hwf; exact Hi. }
    rewrite centered_slice_indices by lia. rewrite Z.sub_diag. simpl. f_equal. lia.
Qed.

(** ** Index enumeration and [argwhere] *)

Lemma in_zrange (n i : Z) : In i (zrange n) <-> 0 <= i < n.
Proof.
  unfold zrange. rewrite in_map_iff. split.
  - intros [k [<- Hk]]. apply in_seq in Hk. lia.
  - intros Hi. exists (Z.to_nat i). split; [lia|]. apply in_seq. lia.
Qed.

Lemma valid_index_cons (n : Z) (sh : list Z) (x : Z) (q : list Z) :
  valid_index (n :: sh) (x :: q) <-> 0 <= x < n /\ valid_index sh q.
Proof.
  unfold valid_index; simpl. split.
  - intros [Hl H]. split; [apply (H 0%nat); lia|].
    split; [lia|]. intros i Hi. apply (H (S i)); lia.
  - intros [Hx [Hl H]]. split; [lia|]. intros [|i] Hi; auto. apply H; lia.
Qed.

Lemma in_all_indices (sh p : list Z) : In p (all_indices sh) <-> valid_index sh p.
Proof.
  revert p; induction sh as [|n sh IH]; intros p; simpl.
  - split.
    + intros [<-|[]]. split; [reflexivity|]. simpl; lia.
    + intros [Hl _]. destruct p; [auto|discriminate].
  - rewrite in_flat_map. split.
    + intros [i [Hi Hp]]. apply in_map_iff in Hp. destruct Hp as [q [<- Hq]].
      apply valid_index_cons. split; [apply in_zrange; exact Hi|apply IH; exact Hq].
    + intros Hv. destruct p as [|x q]; [destruct Hv as [Hl _]; discriminate|].
      apply valid_index_cons in Hv. destruct Hv as [Hx Hq].
      exists x. split; [apply in_zrange; exact Hx|].
      apply in_map. apply IH. exact Hq.
Qed.

Lemma in_argwhere (M : ndarray bool) (p : list Z) :
  In p (argwhere M) <-> valid_index (shape M) p /\ get M p = true.
Proof. unfold argwhere. rewrite filter_In, in_all_indices. reflexivity. Qed.

Lemma length_argwhere_T (M : ndarray bool) : length (argwhere_T M) = ndim M.
Proof. unfold argwhere_T. rewrite length_map, length_seq. reflexivity. Qed.

Lemma nth_argwhere_T (M : ndarray bool) (a : nat) :
  (a < ndim M)%nat ->
  nth a (argwhere_T M) [] = map (fun p => nth a p 0) (argwhere M).
Proof.
  intros Ha. unfold argwhere_T.
  set (f := fun a0 => map (fun p => nth a0 p 0) (argwhere M)).
  rewrite nth_indep with (d' := f 0%nat)
    by (rewrite length_map, length_seq; exact Ha).
  rewrite map_nth, seq_nth by exact Ha. reflexivity.
Qed.

(** ** Python list access within bounds *)

Lemma py_getitem_in {A : Type} (l : list A) (d : Z) dflt :
  0 <= d < Z.of_nat (length l) -> py_getitem l d = Ok (nth (Z.to_nat d) l dflt).
Proof.
  intros Hd. unfold py_getitem.
  destruct (Z.ltb_spec d 0); [lia|]. destruct (Z.ltb_spec d 0); [lia|].
  rewrite (nth_error_nth' l dflt) by lia. reflexivity.
Qed.

Lemma length_replace_nth {A : Type} (l : list A) n x :
  length (replace_nth l n x) = length l.
Proof.
  revert n; induction l as [|y l IH]; intros [|n]; simpl; auto.
Qed.

Lemma nth_replace_nth {A : Type} (l : list A) n x a dflt :
  (n < length l)%nat ->
  nth a (replace_nth l n x) dflt = if Nat.eqb a n then x else nth a l dflt.
Proof.
  revert n a; induction l as [|y l IH]; intros [|n] [|a] Hn; simpl in *;
    try lia; auto.
  apply IH. lia.
Qed.

Lemma py_setitem_in {A : Type} (l : list A) (d : Z) x :
  0 <= d < Z.of_nat (length l) -> py_setitem l d x = Ok (replace_nth l (Z.to_nat d) x).
Proof.
  intros Hd. unfold py_setitem.
  destruct (Z.ltb_spec d 0); [lia|].
  destruct (Z.ltb_spec d 0); [lia|]. destruct (Z.leb_spec (Z.of_nat (length l)) d); [lia|].
  reflexivity.
Qed.

(** ** Minimum and maximum of a coordinate row *)

Lemma fold_min_le (xs : list Z) : forall x y,
  In y (x :: xs) -> fold_left Z.min xs x <= y.
Proof.
  induction xs as [|z xs IH]; intros x y Hy; simpl in *.
  - destruct Hy as [->|[]]. lia.
  - destruct Hy as [->|[->|Hy]].
    + transitivity (Z.min y z); [apply IH; left; reflexivity|lia].
    + transitivity (Z.min x y); [apply IH; left; reflexivity|lia].
    + apply IH. right. exact Hy.
Qed.

Lemma fold_min_in (xs : list Z) : forall x, In (fold_left Z.min xs x) (x :: xs).
Proof.
  induction xs as [|z xs IH]; intros x; simpl; [auto|].
  destruct (IH (Z.min x z)) as [Hm|Hm]; [|auto].
  rewrite <- Hm. destruct (Z.min_spec x z) as [[_ ->]|[_ ->]]; auto.
Qed.

Lemma fold_max_ge (xs : list Z) : forall x y,
  In y (x :: xs) -> y <= fold_left Z.max xs x.
Proof.
  induction xs as [|z xs IH]; intros x y Hy; simpl in *.
  - destruct Hy as [->|[]]. lia.
  - destruct Hy as [->|[->|Hy]].
    + transitivity (Z.max y z); [lia|apply IH; left; reflexivity].
    + transitivity (Z.max x y); [lia|apply IH; left; reflexivity].
    + apply IH. right. exact Hy.
Qed.

Lemma fold_max_in (xs : list Z) : forall x, In (fold_left Z.max xs x) (x :: xs).
Proof.
  induction xs as [|z xs IH]; intros x; simpl; [auto|].
  destruct (IH (Z.max x z)) as [Hm|Hm]; [|auto].
  rewrite <- Hm. destruct (Z.max_spec x z) as [[_ ->]|[_ ->]]; auto.
Qed.


(** ** The axis loop of [crop_roi] *)

(** When every axis visited is in range and has a non-empty coordinate row,
    the loop succeeds and each visited axis holds the bounding slice of its
    row, every other axis its initial slice. *)
Lemma roi_loop_ok (rows : list (list Z)) : forall axes slices,
  length rows = length slices ->
  Forall (fun d => 0 <= d < Z.of_nat (length slices) /\ nth (Z.to_nat d) rows [] <> []) axes ->
  exists slices', roi_loop rows slices axes = Ok slices' /\
    length slices' = length slices /\
    forall a, (a < length slices)%nat ->
      nth a slices' full_slice =
      if existsb (Z.eqb (Z.of_nat a)) axes then bbox_slice (nth a rows [])
      else nth a slices full_slice.
Proof.
  induction axes as [|d axes IH]; intros slices Hl Hax.
  - exists slices. auto.
  - inversion Hax as [|? ? [Hd Hne] Hrest]; subst.
    cbn [roi_loop]. rewrite (py_getitem_in rows d []) by lia. cbn [bind].
    destruct (nth (Z.to_nat d) rows []) as [|x xs] eqn:Hrow; [contradiction|].
    cbn [np_min np_max bind]. rewrite py_setitem_in by lia. cbn [bind].
    set (s' := mk_slice (Some (fold_left Z.min xs x)) (Some (fold_left Z.max xs x + 1))).
    destruct (IH (replace_nth slices (Z.to_nat d) s')) as [sl' [Hrun [Hlen Hnth]]].
    + rewrite length_replace_nth. exact Hl.
    + rewrite length_replace_nth. exact Hrest.
    + exists sl'. rewrite length_replace_nth in Hlen, Hnth.
      split; [exact Hrun|]. split; [exact Hlen|].
      intros a Ha. rewrite Hnth by exact Ha. cbn [existsb].
      destruct (Z.eqb_spec (Z.of_nat a) d) as [Had|Had].
      * simpl. destruct (existsb (Z.eqb (Z.of_nat a)) axes); [reflexivity|].
        rewrite nth_replace_nth by lia.
        replace (Nat.eqb a (Z.to_nat d)) with true by (symmetry; apply Nat.eqb_eq; lia).
        replace a with (Z.to_nat d) by lia. rewrite Hrow. reflexivity.
      * simpl. destruct (existsb (Z.eqb (Z.of_nat a)) axes); [reflexivity|].
        rewrite nth_replace_nth by lia.
        replace (Nat.eqb a (Z.to_nat d)) with false by (symmetry; apply Nat.eqb_neq; lia).
        reflexivity.
Qed.

Lemma py_getitem_err {A : Type} (l : list A) d e :
  py_getitem l d = Err e -> e = index_out_of_bounds.
Proof.
  unfold py_getitem. destruct (_ <? 0); [intros H; injection H; auto|].
  destruct (nth_error _ _); intros H; [discriminate|injection H; auto].
Qed.

Lemma py_setitem_err {A : Type} (l : list A) d x e :
  py_setitem l d x = Err e -> e = index_out_of_bounds.
Proof.
  unfold py_setitem. destruct (_ || _); intros H; [injection H; auto|discriminate].
Qed.

(** The loop only ever raises NumPy's own errors. *)
Lemma roi_loop_err (rows : list (list Z)) : forall axes slices e,
  roi_loop rows slices axes = Err e ->
  e = index_out_of_bounds \/ e = zero_size_min \/ e = zero_size_max.
Proof.
  induction axes as [|d axes IH]; intros slices e H; [discriminate|].
  cbn [roi_loop] in H.
  destruct (py_getitem rows d) as [row|e1] eqn:Hg; cbn [bind] in H.
  2:{ injection H as <-. left. exact (py_getitem_err _ _ _ Hg). }
  destruct row as [|x xs]; cbn [np_min np_max bind] in H.
  { injection H as <-. auto. }
  destruct (py_setitem slices d _) as [sl|e1] eqn:Hs; cbn [bind] in H.
  - exact (IH _ _ H).
  - injection H as <-. left. exact (py_setitem_err _ _ _ _ Hs).
Qed.

Lemma crop_roi_same_shape {E : Type} (A : ndarray E) (M : ndarray bool) axes rs :
  shape A = shape M ->
  crop_roi A M axes rs =
  (slices <- roi_loop (argwhere_T M) (repeat full_slice (ndim A))
                      (axes_indices_of axes (ndim A)) ;;
   cropped_array <- index_slices A slices ;;
   Ok (if rs then inr (cropped_array, slices) else inl cropped_array)).
Proof.
  intros H. unfold crop_roi, list_Z_eqb, _full_array_slices. rewrite H.
  destruct (list_eq_dec Z.eq_dec (shape M) (shape M)) as [_|Hn]; [|contradiction].
  simpl. destruct rs; reflexivity.
Qed.

Lemma axes_indices_range (axes : axes_arg) (n : nat) :
  (1 <= n)%nat \/ axes = AxesNone ->
  Forall (fun d => 0 <= d < Z.of_nat n) (axes_indices_of axes n).
Proof.
  intros Hn. apply Forall_forall. intros d Hd.
  destruct axes as [|k|ks]; simpl in Hd.
  - apply in_zrange in Hd. exact Hd.
  - destruct Hn as [Hn|Hn]; [|discriminate].
    destruct Hd as [<-|[]]. unfold np_mod.
    destruct (Z.eqb_spec (Z.of_nat n) 0); [lia|]. apply Z.mod_pos_bound. lia.
  - destruct Hn as [Hn|Hn]; [|discriminate].
    apply in_map_iff in Hd. destruct Hd as [k [<- _]]. unfold np_mod.
    destruct (Z.eqb_spec (Z.of_nat n) 0); [lia|]. apply Z.mod_pos_bound. lia.
Qed.

Lemma existsb_eqb_In (x : Z) (l : list Z) : existsb (Z.eqb x) l = true <-> In x l.
Proof.
  rewrite existsb_exists. split.
  - intros [y [Hy Hxy]]. apply Z.eqb_eq in Hxy. subst. exact Hy.
  - intros Hx. exists x. split; [exact Hx|apply Z.eqb_refl].
Qed.

Lemma nth_slices_shape (sl : list slice) (sh : list Z) a :
  (a < length sl)%nat -> (a < length sh)%nat ->
  nth a (map range_len (zip_with slice_indices sl sh)) 0
  = range_len (slice_indices (nth a sl full_slice) (nth a sh 0)).
Proof.
  intros H1 H2.
  rewrite nth_indep with (d' := range_len (slice_indices full_slice 0))
    by (rewrite length_map, length_zip_with; lia).
  rewrite map_nth. f_equal. apply nth_zip_with; assumption.
Qed.

(** [crop_roi] on a mask with a true element, when every axis index can be
    normalized: the loop's slices, applied. *)
Lemma crop_roi_nonempty {E : Type} (A : ndarray E) (M : ndarray bool) axes rs :
  shape A = shape M -> argwhere M <> [] ->
  (1 <= ndim A)%nat \/ axes = AxesNone ->
  exists slices,
    length slices = ndim A /\
    (forall a, (a < ndim A)%nat ->
       nth a slices full_slice =
       if existsb (Z.eqb (Z.of_nat a)) (axes_indices_of axes (ndim A))
       then bbox_slice (map (fun p => nth a p 0) (argwhere M)) else full_slice) /\
    exists B, index_slices A slices = Ok B /\
              crop_roi A M axes rs = Ok (if rs then inr (B, slices) else inl B).
Proof.
  intros Hsh Hne Hax. rewrite crop_roi_same_shape by exact Hsh.
  assert (HnM : ndim M = ndim A) by (unfold ndim; rewrite Hsh; reflexivity).
  destruct (roi_loop_ok (argwhere_T M) (axes_indices_of axes (ndim A))
              (repeat full_slice (ndim A))) as [sl [Hrun [Hlen Hnth]]].
  - rewrite length_argwhere_T, repeat_length. exact HnM.
  - rewrite repeat_length. eapply Forall_impl; [|apply axes_indices_range; exact Hax].
    intros d Hd. cbv beta in Hd. split; [exact Hd|].
    rewrite nth_argwhere_T by (rewrite HnM; lia). intros Hm. apply map_eq_nil in Hm. contradiction.
  - rewrite repeat_length in Hlen, Hnth. exists sl.
    split; [exact Hlen|]. split.
    + intros a Ha. rewrite Hnth by exact Ha. rewrite nth_repeat.
      rewrite nth_argwhere_T by lia. reflexivity.
    + eexists. split; [apply index_slices_ok; exact Hlen|].
      rewrite Hrun. cbn [bind]. rewrite index_slices_ok by exact Hlen. reflexivity.
Qed.

Lemma bbox_props (M : ndarray bool) (a : nat) :
  argwhere M <> [] ->
  exists lo hi,
    bbox_slice (map (fun p => nth a p 0) (argwhere M)) = mk_slice (Some lo) (Some (hi + 1)) /\
    (forall p, In p (argwhere M) -> lo <= nth a p 0 <= hi) /\
    (exists p, In p (argwhere M) /\ nth a p 0 = lo) /\
    (exists p, In p (argwhere M) /\ nth a p 0 = hi).
Proof.
  intros Hne. destruct (argwhere M) as [|p0 ps] eqn:Hw; [contradiction|].
  cbn [map bbox_slice].
  set (xs := map (fun p => nth a p 0) ps).
  exists (fold_left Z.min xs (nth a p0 0)), (fold_left Z.max xs (nth a p0 0)).
  split; [reflexivity|]. split; [|split].
  - intros p Hp.
    assert (Hin : In (nth a p 0) (nth a p0 0 :: xs)).
    { change (nth a p0 0 :: xs) with (map (fun p => nth a p 0) (p0 :: ps)).
      apply (in_map (fun q => nth a q 0)). exact Hp. }
    split; [apply fold_min_le|apply fold_max_ge]; exact Hin.
  - pose proof (fold_min_in xs (nth a p0 0)) as Hin.
    change (nth a p0 0 :: xs) with (map (fun p => nth a p 0) (p0 :: ps)) in Hin.
    apply in_map_iff in Hin. destruct Hin as [p [Hp Hpin]]. eauto.
  - pose proof (fold_max_in xs (nth a p0 0)) as Hin.
    change (nth a p0 0 :: xs) with (map (fun p => nth a p 0) (p0 :: ps)) in Hin.
    apply in_map_iff in Hin. destruct Hin as [p [Hp Hpin]]. eauto.
Qed.

Lemma true_position_bounds (M : ndarray bool) (p : list Z) a :
  In p (argwhere M) -> (a < ndim M)%nat -> 0 <= nth a p 0 < nth a (shape M) 0.
Proof.
  intros Hp Ha. apply in_argwhere in Hp. destruct Hp as [[_ Hv] _]. apply Hv. exact Ha.
Qed.

Lemma argwhere_nonempty (M : ndarray bool) :
  (exists p, valid_index (shape M) p /\ get M p = true) -> argwhere M <> [].
Proof.
  intros [p Hp] Hnil. apply in_argwhere in Hp. rewrite Hnil in Hp. destruct Hp.
Qed.

Lemma full_slices_shape (sh : list Z) :
  wf_shape sh ->
  map range_len (zip_with slice_indices (repeat full_slice (length sh)) sh) = sh.
Proof.
  induction 1 as [|n sh Hn _ IH]; [reflexivity|].
  cbn [length repeat zip_with map]. rewrite IH.
  unfold range_len; simpl. f_equal. lia.
Qed.

Lemma full_slices_starts (sh : list Z) :
  map fst (zip_with slice_indices (repeat full_slice (length sh)) sh)
  = map (fun _ => 0) sh.
Proof.
  induction sh as [|n sh IH]; [reflexivity|].
  cbn [length repeat zip_with map]. rewrite IH. reflexivity.
Qed.

Lemma np_mod_normalize (k n : Z) : np_mod (((k mod n) + n) mod n) n = np_mod k n.
Proof.
  unfold np_mod. destruct (Z.eqb_spec n 0) as [_|Hn]; [reflexivity|].
  replace (k mod n + n) with (k mod n + 1 * n) by ring.
  rewrite Z.mod_add, !Z.mod_mod by exact Hn. reflexivity.
Qed.

(** ** Claims about [crop_roi] *)

(** C3: ROI tightness. For a mask of the array's shape with at least one
    true element and [axes = None], [crop_roi] succeeds and the slice of
    every axis [a] is [lo:hi+1], where [lo] and [hi] are the least and the
    greatest axis-[a] coordinate of a true position (both attained); the
    slice resolves to exactly that range, the result is the array indexed
    by these slices, and its extent on axis [a] is [hi + 1 - lo]. *)
Theorem crop_roi_tight {E : Type} (A : ndarray E) (M : ndarray bool) :
  shape A = shape M ->
  (exists p, valid_index (shape M) p /\ get M p = true) ->
  exists B slices,
    crop_roi A M AxesNone true = Ok (inr (B, slices)) /\
    index_slices A slices = Ok B /\
    length slices = ndim A /\
    forall a, (a < ndim A)%nat ->
      exists lo hi,
        nth a slices full_slice = mk_slice (Some lo) (Some (hi + 1)) /\
        slice_indices (nth a slices full_slice) (nth a (shape A) 0) = (lo, hi + 1) /\
        nth a (shape B) 0 = hi + 1 - lo /\
        (forall p, valid_index (shape M) p -> get M p = true -> lo <= nth a p 0 <= hi) /\
        (exists p, valid_index (shape M) p /\ get M p = true /\ nth a p 0 = lo) /\
        (exists p, valid_index (shape M) p /\ get M p = true /\ nth a p 0 = hi).
Proof.
  intros Hsh Htrue. pose proof (argwhere_nonempty M Htrue) as Hne.
  assert (HnM : ndim M = ndim A) by (unfold ndim; rewrite Hsh; reflexivity).
  destruct (crop_roi_nonempty A M AxesNone true Hsh Hne (or_intror eq_refl))
    as [sl [Hlen [Hnth [B [HB Hrun]]]]].
  exists B, sl. split; [exact Hrun|]. split; [exact HB|]. split; [exact Hlen|].
  intros a Ha.
  destruct (bbox_props M a Hne) as [lo [hi [Hbb [Hbnd [[p [Hp Hpl]] [q [Hq Hqh]]]]]]].
  assert (Hsel : existsb (Z.eqb (Z.of_nat a)) (axes_indices_of AxesNone (ndim A)) = true).
  { apply existsb_eqb_In. simpl. apply in_zrange. lia. }
  assert (Hsl : nth a sl full_slice = mk_slice (Some lo) (Some (hi + 1))).
  { rewrite Hnth by exact Ha. rewrite Hsel. exact Hbb. }
  pose proof (true_position_bounds M p a Hp ltac:(lia)) as Hpb.
  pose proof (true_position_bounds M q a Hq ltac:(lia)) as Hqb.
  pose proof (Hbnd p Hp) as Hlohi. rewrite <- Hsh in Hpb, Hqb.
  assert (Hidx : slice_indices (nth a sl full_slice) (nth a (shape A) 0) = (lo, hi + 1)).
  { rewrite Hsl. unfold slice_indices, clamp_bound; simpl.
    destruct (Z.ltb_spec lo 0); [lia|]. destruct (Z.ltb_spec (hi + 1) 0); [lia|].
    f_equal; lia. }
  exists lo, hi. split; [exact Hsl|]. split; [exact Hidx|]. split; [|split; [|split]].
  - rewrite index_slices_ok in HB by exact Hlen. injection HB as <-. simpl.
    rewrite nth_slices_shape by (unfold ndim in *; lia).
    rewrite Hidx. unfold range_len; simpl. lia.
  - intros r Hr Hrt. apply Hbnd. apply in_argwhere. auto.
  - exists p. apply in_argwhere in Hp. tauto.
  - exists q. apply in_argwhere in Hq. tauto.
Qed.

(** C4: frame. For a mask of the array's shape with at least one true
    element and any [axes] that can be normalized (the array has an axis,
    or [axes = None]), [crop_roi] succeeds, and every axis whose index is
    not among the normalized [axes_indices] keeps the full slice [:], which
    resolves to [(0, A.shape[a])], and the result's extent on it equals the
    original one. *)
Theorem crop_roi_unselected_axes_full {E : Type} (A : ndarray E) (M : ndarray bool)
  (axes : axes_arg) :
  shape A = shape M ->
  (exists p, valid_index (shape M) p /\ get M p = true) ->
  (1 <= ndim A)%nat \/ axes = AxesNone ->
  exists B slices,
    crop_roi A M axes true = Ok (inr (B, slices)) /\
    forall a, (a < ndim A)%nat -> ~ In (Z.of_nat a) (axes_indices_of axes (ndim A)) ->
      nth a slices full_slice = full_slice /\
      slice_indices (nth a slices full_slice) (nth a (shape A) 0) = (0, nth a (shape A) 0) /\
      nth a (shape B) 0 = nth a (shape A) 0.
Proof.
  intros Hsh Htrue Hax. pose proof (argwhere_nonempty M Htrue) as Hne.
  assert (HnM : ndim M = ndim A) by (unfold ndim; rewrite Hsh; reflexivity).
  destruct (crop_roi_nonempty A M axes true Hsh Hne Hax)
    as [sl [Hlen [Hnth [B [HB Hrun]]]]].
  exists B, sl. split; [exact Hrun|].
  intros a Ha Hnot.
  assert (Hsl : nth a sl full_slice = full_slice).
  { rewrite Hnth by exact Ha.
    destruct (existsb (Z.eqb (Z.of_nat a)) (axes_indices_of axes (ndim A))) eqn:Hs;
      [apply existsb_eqb_In in Hs; contradiction|reflexivity]. }
  split; [exact Hsl|]. split; [rewrite Hsl; reflexivity|].
  destruct (argwhere M) as [|p ps] eqn:Hw; [contradiction|].
  assert (Hp : In p (argwhere M)) by (rewrite Hw; left; reflexivity).
  pose proof (true_position_bounds M p a Hp ltac:(lia)) as Hpb. rewrite <- Hsh in Hpb.
  rewrite index_slices_ok in HB by exact Hlen. injection HB as <-. simpl.
  rewrite nth_slices_shape by (unfold ndim in *; lia).
  rewrite Hsl. unfold range_len; simpl. lia.
Qed.

(** C6: [crop_roi] fails with [ShapeMismatch] exactly when the array's and
    the mask's shapes differ; it is the first check, made before any
    slicing, and it produces no result. *)
Theorem crop_roi_shape_mismatch_iff {E : Type} (A : ndarray E) (M : ndarray bool)
  (axes : axes_arg) (return_slices : bool) :
  crop_roi A M axes return_slices = Err ShapeMismatch <-> shape A <> shape M.
Proof.
  split.
  - intros H Heq. rewrite crop_roi_same_shape in H by exact Heq.
    destruct (roi_loop _ _ _) as [sl|e] eqn:Hl; cbn [bind] in H.
    + destruct (index_slices A sl) as [c|e] eqn:Hi; cbn [bind] in H.
      * destruct return_slices; discriminate.
      * injection H as ->. unfold index_slices in Hi.
        destruct (_ <? _)%nat; discriminate.
    + injection H as ->. apply roi_loop_err in Hl.
      destruct Hl as [H|[H|H]]; discriminate.
  - intros Hne. unfold crop_roi, list_Z_eqb.
    destruct (list_eq_dec Z.eq_dec (shape A) (shape M)); [contradiction|reflexivity].
Qed.

(** C7 (as the code behaves): for an all-false mask of the array's shape, an
    array with at least one axis and at least one selected axis, [crop_roi]
    returns no result: it fails with NumPy's generic [ValueError] for the
    minimum of a zero-size array, raised by [.min()] on the first selected
    axis's empty coordinate row. *)
Theorem crop_roi_empty_mask_error {E : Type} (A : ndarray E) (M : ndarray bool)
  (axes : axes_arg) (return_slices : bool) :
  shape A = shape M ->
  (forall p, valid_index (shape M) p -> get M p = false) ->
  (1 <= ndim A)%nat ->
  axes_indices_of axes (ndim A) <> [] ->
  crop_roi A M axes return_slices = Err zero_size_min.
Proof.
  intros Hsh Hfalse Hn Hsel.
  assert (HnM : ndim M = ndim A) by (unfold ndim; rewrite Hsh; reflexivity).
  assert (Hw : argwhere M = []).
  { destruct (argwhere M) as [|p ps] eqn:Hw; [reflexivity|].
    assert (Hp : In p (argwhere M)) by (rewrite Hw; left; reflexivity).
    apply in_argwhere in Hp. destruct Hp as [Hv Ht].
    rewrite Hfalse in Ht by exact Hv. discriminate. }
  rewrite crop_roi_same_shape by exact Hsh.
  pose proof (axes_indices_range axes (ndim A) (or_introl Hn)) as Hr.
  destruct (axes_indices_of axes (ndim A)) as [|d rest]; [contradiction|].
  inversion Hr as [|? ? Hd _]; subst.
  cbn [roi_loop]. rewrite (py_getitem_in _ d []) by (rewrite length_argwhere_T; lia).
  cbn [bind]. rewrite nth_argwhere_T by lia. rewrite Hw. reflexivity.
Qed.

(** C7 as stated fails: on the 1-D array of length 3 with an all-false
    mask and [axes = None], [crop_roi] raises the generic NumPy
    [ValueError] (the exception class of [ShapeMismatch] too), not a
    dedicated [EmptyRegionError]. *)
Lemma crop_roi_empty_mask_not_EmptyRegionError :
  crop_roi (mk_ndarray [3] (fun _ => 0)) (mk_ndarray [3] (fun _ => false)) AxesNone false
    = Err zero_size_min /\
  crop_roi (mk_ndarray [3] (fun _ => 0)) (mk_ndarray [3] (fun _ => false)) AxesNone false
    <> Err EmptyRegionError.
Proof. split; vm_compute; [reflexivity|discriminate]. Qed.

(** C8: every axis index is normalized modulo [ndim]: passing [k] or
    [((k % ndim) + ndim) % ndim] (each index of a tuple alike) gives the
    same outcome, and for an array with at least one axis every normalized
    index lies in [[0, ndim)]. *)
Theorem crop_roi_axis_normalization {E : Type} (A : ndarray E) (M : ndarray bool)
  (return_slices : bool) :
  (forall k,
     crop_roi A M (AxesInt k) return_slices =
     crop_roi A M (AxesInt (((k mod Z.of_nat (ndim A)) + Z.of_nat (ndim A))
                             mod Z.of_nat (ndim A))) return_slices) /\
  (forall ks,
     crop_roi A M (AxesTuple ks) return_slices =
     crop_roi A M (AxesTuple (map (fun k => ((k mod Z.of_nat (ndim A)) + Z.of_nat (ndim A))
                                            mod Z.of_nat (ndim A)) ks)) return_slices) /\
  (forall axes, (1 <= ndim A)%nat ->
     Forall (fun d => 0 <= d < Z.of_nat (ndim A)) (axes_indices_of axes (ndim A))).
Proof.
  split; [|split].
  - intros k. unfold crop_roi. cbn [axes_indices_of map].
    rewrite np_mod_normalize. reflexivity.
  - intros ks. unfold crop_roi. cbn [axes_indices_of]. rewrite map_map.
    erewrite map_ext; [reflexivity|]. intros k. cbv beta. symmetry. apply np_mod_normalize.
  - intros axes Hn. apply axes_indices_range. left. exact Hn.
Qed.

(** C10: an empty tuple of axes selects nothing: for any mask of the
    array's shape, even one with no true element, [crop_roi] succeeds with
    the full slice on every axis and returns the whole array. *)
Theorem crop_roi_empty_axes {E : Type} (A : ndarray E) (M : ndarray bool)
  (return_slices : bool) :
  shape A = shape M -> wf_shape (shape A) ->
  exists B,
    crop_roi A M (AxesTuple []) return_slices =
      Ok (if return_slices then inr (B, repeat full_slice (ndim A)) else inl B) /\
    array_equal B A.
Proof.
  intros Hsh Hwf. rewrite crop_roi_same_shape by exact Hsh.
  cbn [axes_indices_of map roi_loop bind].
  rewrite index_slices_ok by apply repeat_length. cbn [bind].
  eexists. split; [reflexivity|]. split; simpl.
  - apply full_slices_shape. exact Hwf.
  - intros idx [Hl _]. unfold ndim. rewrite full_slices_starts.
    unfold ndim in Hl. rewrite full_slices_shape in Hl by exact Hwf.
    rewrite zip_with_add_zeros by exact Hl. reflexivity.
Qed.

(** ** The docstring and spec scenarios, evaluated *)

Example crop_to_shape_scenario :
  crop_summary [10; 10] (crop_to_shape arange_10x10 [6; 6] true)
  = Some ([6; 6], [(2, 8); (2, 8)]).
Proof. reflexivity. Qed.

Example crop_roi_scenario :
  crop_summary [5; 5] (crop_roi arr_5x5 mask_5x5 (AxesTuple [0; 1]) true)
  = Some ([3; 3], [(1, 4); (2, 5)]).
Proof. vm_compute. reflexivity. Qed.

Example crop_roi_negative_axis :
  crop_summary [5; 5] (crop_roi arr_5x5 mask_5x5 (AxesInt (-1)) true)
  = Some ([5; 3], [(0, 5); (2, 5)]).
Proof. vm_compute. reflexivity. Qed.

(** ** Witnesses *)

Lemma crop_to_shape_result_shape_witness :
  exists out, crop_to_shape arange_10x10 [6; 6] false = Ok out /\
              shape (output_array out) = [6; 6].
Proof.
  apply (crop_to_shape_result_shape arange_10x10 [6; 6] false);
    [reflexivity|wf_shape_tac|nth_bound_tac].
Defined.

Lemma crop_to_shape_centering_witness :
  exists B slices,
    crop_to_shape arange_10x10 [5; 6] true = Ok (inr (B, slices)) /\
    length slices = 2%nat /\
    (forall i, (i < 2)%nat ->
       let n := nth i (shape arange_10x10) 0 in
       let delta := n - nth i [5; 6] 0 in
       nth i slices full_slice = mk_slice (Some (delta / 2)) (Some (n - (delta - delta / 2))) /\
       slice_indices (nth i slices full_slice) n = (delta / 2, n - (delta - delta / 2)) /\
       fst (slice_indices (nth i slices full_slice) n) = delta / 2 /\
       n - snd (slice_indices (nth i slices full_slice) n) = delta - delta / 2 /\
       (Z.odd delta = true -> delta - delta / 2 = delta / 2 + 1)) /\
    (forall idx, get B idx =
       get arange_10x10 (zip_with Z.add
         (zip_with (fun n s => (n - s) / 2) (shape arange_10x10) [5; 6]) idx)).
Proof.
  apply (crop_to_shape_centering arange_10x10 [5; 6]);
    [reflexivity|wf_shape_tac|nth_bound_tac].
Defined.

Lemma crop_to_shape_idempotent_witness :
  (exists B C, crop_to_shape arange_10x10 [6; 6] false = Ok (inl B) /\
               crop_to_shape B [6; 6] false = Ok (inl C) /\ array_equal C B) /\
  (shape arange_10x10 = [6; 6] ->
   exists B slices, crop_to_shape arange_10x10 [6; 6] true = Ok (inr (B, slices)) /\
     (forall i, (i < 2)%nat ->
        slice_indices (nth i slices full_slice) (nth i [6; 6] 0) = (0, nth i [6; 6] 0)) /\
     array_equal B arange_10x10).
Proof.
  apply (crop_to_shape_idempotent arange_10x10 [6; 6]);
    [reflexivity|wf_shape_tac|nth_bound_tac].
Defined.

Lemma crop_roi_tight_witness :
  exists B slices,
    crop_roi arr_5x5 mask_5x5 AxesNone true = Ok (inr (B, slices)) /\
    index_slices arr_5x5 slices = Ok B /\
    length slices = 2%nat /\
    forall a, (a < 2)%nat ->
      exists lo hi,
        nth a slices full_slice = mk_slice (Some lo) (Some (hi + 1)) /\
        slice_indices (nth a slices full_slice) (nth a (shape arr_5x5) 0) = (lo, hi + 1) /\
        nth a (shape B) 0 = hi + 1 - lo /\
        (forall p, valid_index (shape mask_5x5) p -> get mask_5x5 p = true ->
                   lo <= nth a p 0 <= hi) /\
        (exists p, valid_index (shape mask_5x5) p /\ get mask_5x5 p = true /\ nth a p 0 = lo) /\
        (exists p, valid_index (shape mask_5x5) p /\ get mask_5x5 p = true /\ nth a p 0 = hi).
Proof.
  apply (crop_roi_tight arr_5x5 mask_5x5); [reflexivity|].
  exists [1; 2]. split; [split; [reflexivity|nth_bound_tac]|reflexivity].
Defined.

Lemma crop_roi_unselected_axes_full_witness :
  exists B slices,
    crop_roi arr_5x5 mask_5x5 (AxesTuple [0]) true = Ok (inr (B, slices)) /\
    forall a, (a < 2)%nat -> ~ In (Z.of_nat a) (axes_indices_of (AxesTuple [0]) 2) ->
      nth a slices full_slice = full_slice /\
      slice_indices (nth a slices full_slice) (nth a (shape arr_5x5) 0)
        = (0, nth a (shape arr_5x5) 0) /\
      nth a (shape B) 0 = nth a (shape arr_5x5) 0.
Proof.
  apply (crop_roi_unselected_axes_full arr_5x5 mask_5x5 (AxesTuple [0]));
    [reflexivity| |left; unfold ndim; simpl; lia].
  exists [1; 2]. split; [split; [reflexivity|nth_bound_tac]|reflexivity].
Defined.

Lemma crop_roi_empty_mask_error_witness :
  crop_roi arr_5x5 empty_mask_5x5 (AxesInt (-1)) true = Err zero_size_min.
Proof.
  apply (crop_roi_empty_mask_error arr_5x5 empty_mask_5x5 (AxesInt (-1)) true);
    [reflexivity|intros p _; reflexivity|unfold ndim; simpl; lia|simpl; discriminate].
Defined.

Lemma crop_roi_empty_axes_witness :
  exists B,
    crop_roi arr_5x5 empty_mask_5x5 (AxesTuple []) true =
      Ok (inr (B, repeat full_slice 2)) /\
    array_equal B arr_5x5.
Proof.
  apply (crop_roi_empty_axes arr_5x5 empty_mask_5x5 true); [reflexivity|wf_shape_tac].
Defined.

(** * Further properties of the code *)

(** X1: [return_slices] only changes what is returned: without it the same
    array comes back (or the same error), and the returned slices, applied
    to the source array, reproduce the cropped array. *)
Theorem crop_to_shape_return_slices {E : Type} (A : ndarray E) (S : list Z) :
  match crop_to_shape A S true with
  | Ok (inr (B, slices)) =>
      crop_to_shape A S false = Ok (inl B) /\ index_slices A slices = Ok B
  | Ok (inl _) => False
  | Err e => crop_to_shape A S false = Err e
  end.
Proof.
  unfold crop_to_shape. cbv zeta.
  destruct (negb _); [reflexivity|].
  destruct (existsb _ _); [reflexivity|].
  destruct (index_slices _ _) as [B|e] eqn:Hi; cbn [bind]; [|reflexivity].
  split; [reflexivity|exact Hi].
Qed.

(** X2: the same for [crop_roi]. *)
Theorem crop_roi_return_slices {E : Type} (A : ndarray E) (M : ndarray bool)
  (axes : axes_arg) :
  match crop_roi A M axes true with
  | Ok (inr (B, slices)) =>
      crop_roi A M axes false = Ok (inl B) /\ index_slices A slices = Ok B
  | Ok (inl _) => False
  | Err e => crop_roi A M axes false = Err e
  end.
Proof.
  unfold crop_roi. cbv zeta.
  destruct (negb _); [reflexivity|].
  destruct (roi_loop _ _ _) as [sl|e]; cbn [bind]; [|reflexivity].
  destruct (index_slices _ _) as [B|e] eqn:Hi; cbn [bind]; [|reflexivity].
  split; [reflexivity|exact Hi].
Qed.

(** Basic indexing looks only at the shape to decide the result's shape. *)
Lemma index_slices_shape_only {E F : Type} (A : ndarray E) (A' : ndarray F) slices :
  shape A = shape A' ->
  match index_slices A slices, index_slices A' slices with
  | Ok B, Ok B' => shape B = shape B'
  | Err e, Err e' => e = e'
  | _, _ => False
  end.
Proof.
  intros Hsh. unfold index_slices, ndim. rewrite Hsh.
  destruct (_ <? _)%nat; simpl; [reflexivity|]. reflexivity.
Qed.

(** X3: the slices [crop_to_shape] uses depend only on the array's shape:
    an array of the same shape (a co-indexed label image, say) is cropped
    with the very same slices, to a result of the same shape, and the same
    errors are raised. *)
Theorem crop_to_shape_coindexed {E F : Type} (A : ndarray E) (A' : ndarray F)
  (S : list Z) :
  shape A = shape A' ->
  match crop_to_shape A S true, crop_to_shape A' S true with
  | Ok (inr (B, slices)), Ok (inr (B', slices')) =>
      slices = slices' /\ shape B = shape B' /\ index_slices A' slices = Ok B'
  | Err e, Err e' => e = e'
  | _, _ => False
  end.
Proof.
  intros Hsh. pose proof (crop_to_shape_return_slices A' S) as HR.
  unfold crop_to_shape in HR |- *. unfold ndim in HR |- *. rewrite <- Hsh in HR |- *.
  cbv zeta in HR |- *.
  destruct (negb _); [reflexivity|].
  destruct (existsb _ _); [reflexivity|].
  pose proof (index_slices_shape_only A A'
    (zip_with (fun start end_ => mk_slice (Some start) (Some end_))
       (map (fun d => d / 2) (zip_with Z.sub (shape A) S))
       (zip_with Z.sub (shape A)
          (zip_with Z.sub (zip_with Z.sub (shape A) S)
             (map (fun d => d / 2) (zip_with Z.sub (shape A) S))))) Hsh) as Hi.
  destruct (index_slices A _) as [B|e]; destruct (index_slices A' _) as [B'|e'];
    cbn [bind] in *; try contradiction.
  - destruct HR as [_ HR]. auto.
  - exact Hi.
Qed.

(** X4: the slices [crop_roi] uses depend only on the mask and the array's
    shape: an array of the same shape is cropped with the same slices, to a
    result of the same shape, and the same errors are raised. *)
Theorem crop_roi_coindexed {E F : Type} (A : ndarray E) (A' : ndarray F)
  (M : ndarray bool) (axes : axes_arg) :
  shape A = shape A' ->
  match crop_roi A M axes true, crop_roi A' M axes true with
  | Ok (inr (B, slices)), Ok (inr (B', slices')) =>
      slices = slices' /\ shape B = shape B' /\ index_slices A' slices = Ok B'
  | Err e, Err e' => e = e'
  | _, _ => False
  end.
Proof.
  intros Hsh. pose proof (crop_roi_return_slices A' M axes) as HR.
  unfold crop_roi, _full_array_slices in HR |- *. unfold ndim in HR |- *.
  rewrite <- Hsh in HR |- *. cbv zeta in HR |- *.
  destruct (negb _); [reflexivity|].
  destruct (roi_loop _ _ _) as [sl|e]; cbn [bind] in *; [|reflexivity].
  pose proof (index_slices_shape_only A A' sl Hsh) as Hi.
  destruct (index_slices A sl) as [B|e]; destruct (index_slices A' sl) as [B'|e'];
    cbn [bind] in *; try contradiction.
  - destruct HR as [_ HR]. auto.
  - exact Hi.
Qed.

Lemma nth_map_lt {A B : Type} (f : A -> B) (l : list A) i da db :
  (i < length l)%nat -> nth i (map f l) db = f (nth i l da).
Proof.
  intros Hi. rewrite nth_indep with (d' := f da) by (rewrite length_map; exact Hi).
  apply map_nth.
Qed.

Lemma clamp_bound_range (b n : Z) : 0 <= n -> 0 <= clamp_bound b n <= n.
Proof. intros Hn. unfold clamp_bound. destruct (Z.ltb_spec b 0); lia. Qed.

Lemma slice_indices_range (sl : slice) (n : Z) :
  0 <= n -> 0 <= fst (slice_indices sl n) <= n /\ 0 <= snd (slice_indices sl n) <= n.
Proof.
  intros Hn. unfold slice_indices; simpl.
  destruct (sl_start sl); destruct (sl_stop sl);
    repeat split; try lia; apply clamp_bound_range; exact Hn.
Qed.

(** Basic indexing of a well-formed array reads only inside it. *)
Lemma index_slices_in_bounds {E : Type} (A : ndarray E) slices B :
  wf_shape (shape A) -> index_slices A slices = Ok B ->
  forall idx, valid_index (shape B) idx ->
  exists idx', valid_index (shape A) idx' /\ get B idx = get A idx'.
Proof.
  intros Hwf HB idx [Hlen Hv]. unfold index_slices in HB.
  destruct (Nat.ltb_spec (ndim A) (length slices)) as [_|Hle]; [discriminate|].
  injection HB as <-. simpl in *.
  set (sl' := slices ++ repeat full_slice (ndim A - length slices)) in *.
  assert (Hsl' : length sl' = ndim A).
  { unfold sl'. rewrite length_app, repeat_length. lia. }
  set (bounds := zip_with slice_indices sl' (shape A)) in *.
  assert (Hb : length bounds = ndim A).
  { unfold bounds. rewrite length_zip_with. unfold ndim in *. lia. }
  rewrite length_map in Hlen, Hv.
  exists (zip_with Z.add (map fst bounds) idx). split; [|reflexivity].
  split.
  - rewrite length_zip_with, length_map. unfold ndim in *. lia.
  - intros i Hi. unfold ndim in *.
    rewrite (nth_zip_with _ _ _ _ 0 0) by (rewrite ?length_map; lia).
    rewrite (nth_map_lt _ _ _ (0, 0)) by lia.
    specialize (Hv i ltac:(lia)).
    rewrite (nth_map_lt _ _ _ (0, 0)) in Hv by lia.
    unfold bounds in *.
    rewrite (nth_zip_with _ _ _ _ full_slice 0) in Hv |- * by lia.
    assert (Hn : 0 <= nth i (shape A) 0).
    { unfold wf_shape in Hwf. rewrite Forall_nth in Hwf. apply Hwf. exact Hi. }
    destruct (slice_indices_range (nth i sl' full_slice) (nth i (shape A) 0) Hn).
    unfold range_len in Hv. lia.
Qed.

(** Per axis, the slice [crop_roi] uses on a mask with a true element covers
    every true position and lies inside the axis. *)
Lemma crop_roi_axes_cover {E : Type} (A : ndarray E) (M : ndarray bool) axes rs :
  shape A = shape M -> argwhere M <> [] ->
  (1 <= ndim A)%nat \/ axes = AxesNone ->
  exists slices,
    length slices = ndim A /\
    (exists B, index_slices A slices = Ok B /\
               crop_roi A M axes rs = Ok (if rs then inr (B, slices) else inl B)) /\
    forall a, (a < ndim A)%nat -> exists lo hi,
      slice_indices (nth a slices full_slice) (nth a (shape A) 0) = (lo, hi + 1) /\
      0 <= lo <= hi /\ hi < nth a (shape A) 0 /\
      forall p, In p (argwhere M) -> lo <= nth a p 0 <= hi.
Proof.
  intros Hsh Hne Hax.
  destruct (crop_roi_nonempty A M axes rs Hsh Hne Hax) as [sl [Hlen [Hnth HB]]].
  exists sl. split; [exact Hlen|]. split; [exact HB|].
  intros a Ha.
  assert (HaM : (a < ndim M)%nat) by (unfold ndim in *; rewrite <- Hsh; exact Ha).
  assert (Hex : exists p0, In p0 (argwhere M)).
  { destruct (argwhere M) as [|x l]; [contradiction|]. exists x. left. reflexivity. }
  destruct Hex as [p0 Hp0].
  pose proof (true_position_bounds M p0 a Hp0 HaM) as Hb0. rewrite <- Hsh in Hb0.
  rewrite Hnth by exact Ha.
  destruct (existsb _ _).
  - destruct (bbox_props M a Hne) as [lo [hi [Hbb [Hbnd [[p [Hp Hpl]] [q [Hq Hqh]]]]]]].
    pose proof (true_position_bounds M p a Hp HaM) as Hpb.
    pose proof (true_position_bounds M q a Hq HaM) as Hqb.
    rewrite <- Hsh in Hpb, Hqb. pose proof (Hbnd p Hp).
    exists lo, hi. rewrite Hbb. unfold slice_indices, clamp_bound; simpl.
    destruct (Z.ltb_spec lo 0); [lia|]. destruct (Z.ltb_spec (hi + 1) 0); [lia|].
    split; [f_equal; lia|]. split; [lia|]. split; [lia|exact Hbnd].
  - exists 0, (nth a (shape A) 0 - 1). split; [unfold slice_indices; cbn [sl_start sl_stop full_slice]; f_equal; lia|].
    split; [lia|]. split; [lia|].
    intros p Hp. pose proof (true_position_bounds M p a Hp HaM). rewrite <- Hsh in *. lia.
Qed.

Lemma zip_with_add_sub (starts p : list Z) :
  length p = length starts ->
  zip_with Z.add starts (zip_with Z.sub p starts) = p.
Proof.
  revert p; induction starts as [|s starts IH]; intros [|x p] Hl; simpl in *;
    try discriminate; auto.
  rewrite IH by lia. f_equal. lia.
Qed.

(** X5: on a mask of the array's shape with a true element (and axes that
    can be normalized), [crop_roi] succeeds with a result that has the
    array's rank, is non-empty and no larger than the array on every axis,
    and contains every true position of the mask: position [p] of the
    source is position [p - start] of the result. *)
Theorem crop_roi_contains_roi {E : Type} (A : ndarray E) (M : ndarray bool)
  (axes : axes_arg) :
  shape A = shape M ->
  (exists p, valid_index (shape M) p /\ get M p = true) ->
  (1 <= ndim A)%nat \/ axes = AxesNone ->
  exists B slices,
    crop_roi A M axes true = Ok (inr (B, slices)) /\
    length (shape B) = ndim A /\
    (forall a, (a < ndim A)%nat -> 1 <= nth a (shape B) 0 <= nth a (shape A) 0) /\
    forall p, valid_index (shape M) p -> get M p = true ->
      let q := zip_with Z.sub p (map fst (zip_with slice_indices slices (shape A))) in
      valid_index (shape B) q /\ get B q = get A p.
Proof.
  intros Hsh Htrue Hax. pose proof (argwhere_nonempty M Htrue) as Hne.
  destruct (crop_roi_axes_cover A M axes true Hsh Hne Hax)
    as [sl [Hlen [[B [HB Hrun]] Hcov]]].
  exists B, sl. split; [exact Hrun|].
  rewrite index_slices_ok in HB by exact Hlen. injection HB as <-. cbn [shape get].
  assert (Hsl : length (zip_with slice_indices sl (shape A)) = ndim A).
  { rewrite length_zip_with. unfold ndim in *. lia. }
  split; [rewrite length_map; exact Hsl|]. split.
  - intros a Ha. destruct (Hcov a Ha) as [lo [hi [Hidx [Hlo [Hhi _]]]]].
    rewrite nth_slices_shape by (unfold ndim in *; lia).
    rewrite Hidx. unfold range_len; simpl. lia.
  - intros p Hv Hp. cbv zeta.
    set (q := zip_with Z.sub p (map fst (zip_with slice_indices sl (shape A)))).
    pose proof Hv as [Hpl _].
    assert (HpA : length p = ndim A) by (unfold ndim; rewrite Hsh; exact Hpl).
    split.
    + split.
      * unfold q. rewrite length_map, !length_zip_with, length_map.
        unfold ndim in *. lia.
      * rewrite length_map, Hsl. intros a Ha.
        destruct (Hcov a Ha) as [lo [hi [Hidx [Hlo [Hhi Hin]]]]].
        assert (Hpa : lo <= nth a p 0 <= hi) by (apply Hin, in_argwhere; auto).
        unfold q. rewrite (nth_zip_with _ _ _ _ 0 0) by (rewrite ?length_map; lia).
        rewrite (nth_map_lt _ _ _ (0, 0)) by lia.
        rewrite (nth_map_lt _ _ _ (0, 0)) by lia.
        rewrite (nth_zip_with _ _ _ _ full_slice 0) by (unfold ndim in *; lia).
        rewrite Hidx. unfold range_len; simpl. lia.
    + unfold q. rewrite zip_with_add_sub; [reflexivity|].
      rewrite length_map. lia.
Qed.

(** X6: [crop_to_shape] on a well-formed array never reads outside it:
    every element of the result is the element of the source at a valid
    index. *)
Theorem crop_to_shape_reads_in_bounds {E : Type} (A : ndarray E) (S : list Z)
  (return_slices : bool) (out : crop_output E) :
  wf_shape (shape A) ->
  crop_to_shape A S return_slices = Ok out ->
  forall idx, valid_index (shape (output_array out)) idx ->
  exists idx', valid_index (shape A) idx' /\ get (output_array out) idx = get A idx'.
Proof.
  intros Hwf H. unfold crop_to_shape in H. cbv zeta in H.
  destruct (negb _); [discriminate|]. destruct (existsb _ _); [discriminate|].
  destruct (index_slices A _) as [B|e] eqn:HB; cbn [bind] in H; [|discriminate].
  destruct return_slices; injection H as <-; simpl;
    exact (index_slices_in_bounds A _ B Hwf HB).
Qed.

(** X7: the same for [crop_roi]: whatever the mask and the axes, a result
    of [crop_roi] on a well-formed array reads only inside the array. *)
Theorem crop_roi_reads_in_bounds {E : Type} (A : ndarray E) (M : ndarray bool)
  (axes : axes_arg) (return_slices : bool) (out : crop_output E) :
  wf_shape (shape A) ->
  crop_roi A M axes return_slices = Ok out ->
  forall idx, valid_index (shape (output_array out)) idx ->
  exists idx', valid_index (shape A) idx' /\ get (output_array out) idx = get A idx'.
Proof.
  intros Hwf H. unfold crop_roi in H. cbv zeta in H.
  destruct (negb _); [discriminate|].
  destruct (roi_loop _ _ _) as [sl|e]; cbn [bind] in H; [|discriminate].
  destruct (index_slices A sl) as [B|e] eqn:HB; cbn [bind] in H; [|discriminate].
  destruct return_slices; injection H as <-; simpl;
    exact (index_slices_in_bounds A sl B Hwf HB).
Qed.

(** X8: only the set of normalized axis indices matters: on a mask with a
    true element and an array with at least one axis, two [axes] arguments
    whose normalized indices have the same members (in any order, with or
    without repetitions, negative or not) give the same outcome. *)
Theorem crop_roi_axes_as_set {E : Type} (A : ndarray E) (M : ndarray bool)
  (axes axes' : axes_arg) (return_slices : bool) :
  shape A = shape M ->
  (exists p, valid_index (shape M) p /\ get M p = true) ->
  (1 <= ndim A)%nat ->
  (forall d, In d (axes_indices_of axes (ndim A)) <-> In d (axes_indices_of axes' (ndim A))) ->
  crop_roi A M axes return_slices = crop_roi A M axes' return_slices.
Proof.
  intros Hsh Htrue Hn Hset. pose proof (argwhere_nonempty M Htrue) as Hne.
  destruct (crop_roi_nonempty A M axes return_slices Hsh Hne (or_introl Hn))
    as [sl [Hlen [Hnth [B [HB Hrun]]]]].
  destruct (crop_roi_nonempty A M axes' return_slices Hsh Hne (or_introl Hn))
    as [sl' [Hlen' [Hnth' [B' [HB' Hrun']]]]].
  assert (Hsl : sl = sl').
  { apply (nth_ext sl sl' full_slice full_slice); [congruence|].
    intros a Ha. rewrite Hlen in Ha. rewrite Hnth, Hnth' by exact Ha.
    replace (existsb (Z.eqb (Z.of_nat a)) (axes_indices_of axes' (ndim A)))
      with (existsb (Z.eqb (Z.of_nat a)) (axes_indices_of axes (ndim A)));
      [reflexivity|].
    destruct (existsb (Z.eqb (Z.of_nat a)) (axes_indices_of axes (ndim A))) eqn:H1;
    destruct (existsb (Z.eqb (Z.of_nat a)) (axes_indices_of axes' (ndim A))) eqn:H2;
      auto.
    - apply existsb_eqb_In, Hset in H1. apply existsb_eqb_In in H1. congruence.
    - apply existsb_eqb_In, Hset in H2. apply existsb_eqb_In in H2. congruence. }
  subst sl'. rewrite HB in HB'. injection HB' as <-. congruence.
Qed.

Lemma zip_with_add_assoc (a b c : list Z) :
  zip_with Z.add a (zip_with Z.add b c) = zip_with Z.add (zip_with Z.add a b) c.
Proof.
  revert b c; induction a as [|x a IH]; intros [|y b] [|z c]; simpl; auto.
  rewrite IH, Z.add_assoc. reflexivity.
Qed.

(** X9: two centered crops compose: cropping to [S] and then to a smaller
    [S'] succeeds, has shape [S'], and reads the source at the sum of the
    two crops' leading offsets. *)
Theorem crop_to_shape_compose {E : Type} (A : ndarray E) (S S' : list Z) :
  length S = ndim A -> length S' = length S -> wf_shape S' ->
  (forall i, (i < length S)%nat -> nth i S 0 <= nth i (shape A) 0) ->
  (forall i, (i < length S)%nat -> nth i S' 0 <= nth i S 0) ->
  exists B C,
    crop_to_shape A S false = Ok (inl B) /\
    crop_to_shape B S' false = Ok (inl C) /\
    shape C = S' /\
    forall idx, get C idx =
      get A (zip_with Z.add
               (zip_with Z.add (zip_with (fun n s => (n - s) / 2) (shape A) S)
                               (zip_with (fun n s => (n - s) / 2) S S')) idx).
Proof.
  intros Hl Hl' Hwf' Hle Hle'.
  assert (Hwf : wf_shape S).
  { unfold wf_shape in *. rewrite Forall_nth in Hwf' |- *. intros i d Hi.
    rewrite nth_indep with (d' := 0) by exact Hi.
    specialize (Hwf' i 0 ltac:(lia)). specialize (Hle' i Hi). lia. }
  pose proof (valid_target_Forall2 S (shape A) Hl Hwf Hle) as HF.
  assert (HF' : Forall2 (fun s n => 0 <= s <= n) S' S).
  { apply valid_target_Forall2; [exact Hl'|exact Hwf'|]. rewrite Hl'. exact Hle'. }
  assert (HB : exists B, crop_to_shape A S false = Ok (inl B) /\ shape B = S /\
            forall idx, get B idx =
              get A (zip_with Z.add (zip_with (fun n s => (n - s) / 2) (shape A) S) idx)).
  { rewrite crop_to_shape_ok by (auto using Forall2_le_weaken). cbv zeta.
    eexists. split; [reflexivity|]. cbn [shape get]. split.
    - apply centered_shape. exact HF.
    - intros idx. rewrite centered_starts by exact HF. reflexivity. }
  destruct HB as [B [HB [HBs HBg]]]. exists B.
  rewrite (crop_to_shape_ok B S'); [|unfold ndim; rewrite HBs; exact Hl'|
                             rewrite HBs; apply Forall2_le_weaken; exact HF'].
  cbv zeta. eexists. split; [exact HB|]. split; [reflexivity|]. cbn [shape get].
  rewrite HBs. split; [apply centered_shape; exact HF'|].
  intros idx. rewrite centered_starts by exact HF'. rewrite HBg.
  rewrite zip_with_add_assoc. reflexivity.
Qed.

(** X10: on a 0-d array any explicit axis fails with an [IndexError]: the
    index is reduced modulo [0] to [0], and [np.argwhere(mask).T] of a 0-d
    mask has no row to take. *)
Theorem crop_roi_zero_dim_axis {E : Type} (A : ndarray E) (M : ndarray bool)
  (axes : axes_arg) (return_slices : bool) :
  shape A = shape M -> ndim A = 0%nat ->
  axes_indices_of axes (ndim A) <> [] ->
  crop_roi A M axes return_slices = Err index_out_of_bounds.
Proof.
  intros Hsh H0 Hsel. rewrite crop_roi_same_shape by exact Hsh.
  assert (Hrows : argwhere_T M = []).
  { unfold argwhere_T. replace (ndim M) with 0%nat; [reflexivity|].
    unfold ndim in *. rewrite <- Hsh. symmetry. exact H0. }
  rewrite Hrows.
  destruct (axes_indices_of axes (ndim A)) as [|d rest]; [contradiction|].
  cbn [roi_loop]. unfold py_getitem. cbn [length Z.of_nat].
  destruct (d <? 0); destruct (_ <? 0); try reflexivity;
    rewrite nth_error_nil; reflexivity.
Qed.

(** Shifting a true position of the mask by the slices' starts lands inside
    any array indexed by those slices, on the element it came from. *)
Lemma roi_shift {F : Type} (A' : ndarray F) (M : ndarray bool) slices B' :
  shape A' = shape M -> length slices = ndim M -> index_slices A' slices = Ok B' ->
  (forall a, (a < ndim M)%nat -> exists lo hi,
     slice_indices (nth a slices full_slice) (nth a (shape M) 0) = (lo, hi + 1) /\
     0 <= lo <= hi /\ hi < nth a (shape M) 0 /\
     forall p, In p (argwhere M) -> lo <= nth a p 0 <= hi) ->
  forall p, In p (argwhere M) ->
    let q := zip_with Z.sub p (map fst (zip_with slice_indices slices (shape M))) in
    valid_index (shape B') q /\ get B' q = get A' p /\
    forall a, (a < ndim M)%nat ->
      nth a q 0 = nth a p 0 - fst (slice_indices (nth a slices full_slice) (nth a (shape M) 0)).
Proof.
  intros Hsh Hlen HB Hcov p Hp q.
  rewrite index_slices_ok in HB by (unfold ndim in *; rewrite Hsh; exact Hlen).
  injection HB as <-. cbn [shape get]. rewrite Hsh.
  pose proof Hp as Hp'. apply in_argwhere in Hp'. destruct Hp' as [[Hpl _] _].
  assert (Hsl : length (zip_with slice_indices slices (shape M)) = ndim M).
  { rewrite length_zip_with. unfold ndim in *. lia. }
  assert (Hq : forall a, (a < ndim M)%nat ->
     nth a q 0 = nth a p 0 - fst (slice_indices (nth a slices full_slice) (nth a (shape M) 0))).
  { intros a Ha. unfold q.
    rewrite (nth_zip_with _ _ _ _ 0 0) by (rewrite ?length_map; unfold ndim in *; lia).
    rewrite (nth_map_lt _ _ _ (0, 0)) by lia.
    rewrite (nth_zip_with _ _ _ _ full_slice 0) by (unfold ndim in *; lia).
    reflexivity. }
  split; [|split; [|exact Hq]].
  - split.
    + unfold q. rewrite length_map, !length_zip_with, length_map.
      unfold ndim in *. lia.
    + rewrite length_map, Hsl. intros a Ha. rewrite Hq by exact Ha.
      destruct (Hcov a Ha) as [lo [hi [Hidx [Hlo [Hhi Hin]]]]].
      pose proof (Hin p Hp).
      rewrite (nth_map_lt _ _ _ (0, 0)) by lia.
      rewrite (nth_zip_with _ _ _ _ full_slice 0) by (unfold ndim in *; lia).
      rewrite Hidx. unfold range_len; simpl. lia.
  - unfold q. rewrite zip_with_add_sub; [reflexivity|].
    rewrite length_map, Hsl. exact Hpl.
Qed.

(** With [axes = None], every axis gets the tight, attained bounding range. *)
Lemma roi_none_axis (M : ndarray bool) (sh : list Z) slices a :
  sh = shape M -> argwhere M <> [] -> (a < ndim M)%nat ->
  nth a slices full_slice = bbox_slice (map (fun p => nth a p 0) (argwhere M)) ->
  exists lo hi,
    slice_indices (nth a slices full_slice) (nth a sh 0) = (lo, hi + 1) /\
    0 <= lo <= hi /\ hi < nth a sh 0 /\
    (forall p, In p (argwhere M) -> lo <= nth a p 0 <= hi) /\
    (exists p, In p (argwhere M) /\ nth a p 0 = lo) /\
    (exists p, In p (argwhere M) /\ nth a p 0 = hi).
Proof.
  intros -> Hne Ha Hsl.
  destruct (bbox_props M a Hne) as [lo [hi [Hbb [Hbnd [[p [Hp Hpl]] [q [Hq Hqh]]]]]]].
  pose proof (true_position_bounds M p a Hp Ha).
  pose proof (true_position_bounds M q a Hq Ha).
  pose proof (Hbnd p Hp).
  exists lo, hi. rewrite Hsl, Hbb. unfold slice_indices, clamp_bound; simpl.
  destruct (Z.ltb_spec lo 0); [lia|]. destruct (Z.ltb_spec (hi + 1) 0); [lia|].
  split; [f_equal; lia|]. split; [lia|]. split; [lia|].
  split; [exact Hbnd|]. split; eauto.
Qed.

Lemma range_len_wf (l : list (Z * Z)) : wf_shape (map range_len l).
Proof.
  unfold wf_shape. apply Forall_map, Forall_forall. intros r _. unfold range_len. lia.
Qed.

(** Slices that resolve to the full range on every axis give the array back. *)
Lemma full_range_slices (slices : list slice) (sh : list Z) :
  length slices = length sh -> wf_shape sh ->
  (forall a, (a < length sh)%nat ->
     slice_indices (nth a slices full_slice) (nth a sh 0) = (0, nth a sh 0)) ->
  map range_len (zip_with slice_indices slices sh) = sh /\
  map fst (zip_with slice_indices slices sh) = map (fun _ => 0) sh.
Proof.
  revert slices; induction sh as [|n sh IH]; intros [|s slices] Hl Hwf H;
    cbn [length zip_with map] in *; try discriminate; [auto|].
  inversion Hwf as [|? ? Hn Hwf']; subst.
  destruct (IH slices ltac:(lia) Hwf') as [IH1 IH2].
  { intros a Ha. apply (H (S a)). lia. }
  pose proof (H 0%nat ltac:(lia)) as H0. simpl in H0. rewrite H0, IH1, IH2.
  unfold range_len; cbn [fst snd]. split; f_equal; lia.
Qed.

(** X11: a ROI crop is already tight. Crop with [axes = None], crop the
    mask with the same slices (as [return_slices] allows), and crop the
    result again with that mask: every axis now gets its full range and
    the second crop returns the first crop unchanged. *)
Theorem crop_roi_recrop_noop {E : Type} (A : ndarray E) (M : ndarray bool) :
  shape A = shape M ->
  (exists p, valid_index (shape M) p /\ get M p = true) ->
  exists B slices M',
    crop_roi A M AxesNone true = Ok (inr (B, slices)) /\
    index_slices M slices = Ok M' /\
    exists C slices',
      crop_roi B M' AxesNone true = Ok (inr (C, slices')) /\
      (forall a, (a < ndim B)%nat ->
         slice_indices (nth a slices' full_slice) (nth a (shape B) 0) = (0, nth a (shape B) 0)) /\
      array_equal C B.
Proof.
  intros Hsh Htrue. pose proof (argwhere_nonempty M Htrue) as Hne.
  assert (HnM : ndim M = ndim A) by (unfold ndim; rewrite Hsh; reflexivity).
  destruct (crop_roi_nonempty A M AxesNone true Hsh Hne (or_intror eq_refl))
    as [sl [Hlen [Hnth [B [HB Hrun]]]]].
  assert (Hax : forall a, (a < ndim M)%nat -> exists lo hi,
    slice_indices (nth a sl full_slice) (nth a (shape M) 0) = (lo, hi + 1) /\
    0 <= lo <= hi /\ hi < nth a (shape M) 0 /\
    (forall p, In p (argwhere M) -> lo <= nth a p 0 <= hi) /\
    (exists p, In p (argwhere M) /\ nth a p 0 = lo) /\
    (exists p, In p (argwhere M) /\ nth a p 0 = hi)).
  { intros a Ha. apply roi_none_axis; auto. rewrite Hnth by lia.
    replace (existsb _ _) with true; [reflexivity|]. symmetry.
    apply existsb_eqb_In. apply in_zrange. lia. }
  assert (Hcov : forall a, (a < ndim M)%nat -> exists lo hi,
    slice_indices (nth a sl full_slice) (nth a (shape M) 0) = (lo, hi + 1) /\
    0 <= lo <= hi /\ hi < nth a (shape M) 0 /\
    forall p, In p (argwhere M) -> lo <= nth a p 0 <= hi).
  { intros a Ha. destruct (Hax a Ha) as (lo & hi & H1 & H2 & H3 & H4 & _). eauto 10. }
  assert (HlenM : length sl = ndim M) by lia.
  destruct (index_slices M sl) as [M'|e] eqn:HM'.
  2:{ rewrite index_slices_ok in HM' by exact HlenM. discriminate. }
  exists B, sl, M'. split; [exact Hrun|]. split; [exact HM'|].
  assert (HBM' : shape B = shape M').
  { pose proof (index_slices_shape_only A M sl Hsh) as Hi. rewrite HB, HM' in Hi. exact Hi. }
  assert (HBsh : shape B = map range_len (zip_with slice_indices sl (shape M))).
  { rewrite index_slices_ok in HB by exact Hlen. injection HB as <-. simpl. rewrite Hsh.
    reflexivity. }
  assert (HnB : ndim B = ndim M).
  { unfold ndim. rewrite HBsh, length_map, length_zip_with. unfold ndim in *. lia. }
  pose proof (roi_shift M M sl M' eq_refl HlenM HM' Hcov) as ShM.
  assert (HinM' : forall p, In p (argwhere M) ->
    In (zip_with Z.sub p (map fst (zip_with slice_indices sl (shape M)))) (argwhere M')).
  { intros p Hp. destruct (ShM p Hp) as [Hv [Hg _]]. apply in_argwhere.
    split; [exact Hv|]. rewrite Hg. apply in_argwhere in Hp. apply Hp. }
  assert (HneM' : argwhere M' <> []).
  { assert (Hex : exists p0, In p0 (argwhere M)).
    { destruct (argwhere M) as [|p0 ps]; [contradiction|]. exists p0. left; reflexivity. }
    destruct Hex as [p0 Hp0]. intros Hnil. pose proof (HinM' p0 Hp0) as H0.
    rewrite Hnil in H0. destruct H0. }
  destruct (crop_roi_axes_cover B M' AxesNone true HBM' HneM' (or_intror eq_refl))
    as [sl' [Hlen' [[C [HC HrunC]] Hcov']]].
  exists C, sl'. split; [exact HrunC|].
  assert (Hfull : forall a, (a < ndim B)%nat ->
     slice_indices (nth a sl' full_slice) (nth a (shape B) 0) = (0, nth a (shape B) 0)).
  { intros a Ha.
    destruct (Hcov' a Ha) as [lo' [hi' [Hidx' [Hlo' [Hhi' Hin']]]]].
    destruct (Hax a ltac:(lia)) as (lo & hi & Hidx & Hlo & Hhi & _ & [p [Hp Hpl]] & [q [Hq Hqh]]).
    assert (Hext : nth a (shape B) 0 = hi + 1 - lo).
    { rewrite HBsh, nth_slices_shape by (unfold ndim in *; lia).
      rewrite Hidx. unfold range_len; simpl. lia. }
    pose proof (Hin' _ (HinM' p Hp)) as Hp'.
    pose proof (Hin' _ (HinM' q Hq)) as Hq'.
    destruct (ShM p Hp) as [_ [_ Hpa]]. destruct (ShM q Hq) as [_ [_ Hqa]].
    rewrite Hpa, Hidx in Hp' by lia. rewrite Hqa, Hidx in Hq' by lia. simpl in Hp', Hq'.
    rewrite Hidx'. f_equal; lia. }
  split; [exact Hfull|].
  assert (HwfB : wf_shape (shape B)) by (rewrite HBsh; apply range_len_wf).
  destruct (full_range_slices sl' (shape B)) as [Hs1 Hs2];
    [unfold ndim in *; lia|exact HwfB|exact Hfull|].
  rewrite index_slices_ok in HC by exact Hlen'. injection HC as <-.
  split; cbn [shape get]; [exact Hs1|].
  intros idx [Hl _]. rewrite Hs1 in Hl. rewrite Hs2, zip_with_add_zeros by exact Hl.
  reflexivity.
Qed.

(** ** Instances of the further properties *)

Lemma crop_to_shape_coindexed_witness :
  shape arr_5x5 = shape mask_5x5 /\
  match crop_to_shape arr_5x5 [3; 2] true, crop_to_shape mask_5x5 [3; 2] true with
  | Ok (inr (B, slices)), Ok (inr (B', slices')) =>
      slices = slices' /\ shape B = shape B' /\ index_slices mask_5x5 slices = Ok B'
  | Err e, Err e' => e = e'
  | _, _ => False
  end.
Proof.
  split; [reflexivity|]. apply (crop_to_shape_coindexed arr_5x5 mask_5x5 [3; 2]).
  reflexivity.
Defined.

Lemma crop_roi_coindexed_witness :
  shape arr_5x5 = shape mask_5x5 /\
  match crop_roi arr_5x5 mask_5x5 (AxesInt 1) true,
        crop_roi mask_5x5 mask_5x5 (AxesInt 1) true with
  | Ok (inr (B, slices)), Ok (inr (B', slices')) =>
      slices = slices' /\ shape B = shape B' /\ index_slices mask_5x5 slices = Ok B'
  | Err e, Err e' => e = e'
  | _, _ => False
  end.
Proof.
  split; [reflexivity|]. apply (crop_roi_coindexed arr_5x5 mask_5x5 mask_5x5 (AxesInt 1)).
  reflexivity.
Defined.

Lemma crop_roi_contains_roi_witness :
  exists B slices,
    crop_roi arr_5x5 mask_5x5 (AxesTuple [0]) true = Ok (inr (B, slices)) /\
    length (shape B) = 2%nat /\
    (forall a, (a < 2)%nat -> 1 <= nth a (shape B) 0 <= nth a (shape arr_5x5) 0) /\
    forall p, valid_index (shape mask_5x5) p -> get mask_5x5 p = true ->
      let q := zip_with Z.sub p (map fst (zip_with slice_indices slices (shape arr_5x5))) in
      valid_index (shape B) q /\ get B q = get arr_5x5 p.
Proof.
  apply (crop_roi_contains_roi arr_5x5 mask_5x5 (AxesTuple [0]));
    [reflexivity| |left; unfold ndim; simpl; lia].
  exists [1; 2]. split; [split; [reflexivity|nth_bound_tac]|reflexivity].
Defined.

Lemma crop_to_shape_reads_in_bounds_witness :
  exists out,
    crop_to_shape arange_10x10 [6; 3] false = Ok out /\
    forall idx, valid_index (shape (output_array out)) idx ->
      exists idx', valid_index (shape arange_10x10) idx' /\
                   get (output_array out) idx = get arange_10x10 idx'.
Proof.
  eexists. split; [reflexivity|].
  apply (crop_to_shape_reads_in_bounds arange_10x10 [6; 3] false); [wf_shape_tac|reflexivity].
Defined.

Lemma crop_roi_reads_in_bounds_witness :
  exists out,
    crop_roi arr_5x5 mask_5x5 (AxesInt (-1)) true = Ok out /\
    forall idx, valid_index (shape (output_array out)) idx ->
      exists idx', valid_index (shape arr_5x5) idx' /\
                   get (output_array out) idx = get arr_5x5 idx'.
Proof.
  eexists. split; [reflexivity|].
  apply (crop_roi_reads_in_bounds arr_5x5 mask_5x5 (AxesInt (-1)) true);
    [wf_shape_tac|reflexivity].
Defined.

Lemma crop_roi_axes_as_set_witness :
  crop_roi arr_5x5 mask_5x5 (AxesTuple [0; 1]) true =
  crop_roi arr_5x5 mask_5x5 (AxesTuple [-1; 0; 1; -2]) true.
Proof.
  apply (crop_roi_axes_as_set arr_5x5 mask_5x5 (AxesTuple [0; 1]) (AxesTuple [-1; 0; 1; -2]) true);
    [reflexivity| |unfold ndim; simpl; lia|intros d; simpl; tauto].
  exists [1; 2]. split; [split; [reflexivity|nth_bound_tac]|reflexivity].
Defined.

Lemma crop_to_shape_compose_witness :
  exists B C,
    crop_to_shape arange_10x10 [6; 6] false = Ok (inl B) /\
    crop_to_shape B [3; 4] false = Ok (inl C) /\
    shape C = [3; 4] /\
    forall idx, get C idx =
      get arange_10x10 (zip_with Z.add
        (zip_with Z.add (zip_with (fun n s => (n - s) / 2) (shape arange_10x10) [6; 6])
                        (zip_with (fun n s => (n - s) / 2) [6; 6] [3; 4])) idx).
Proof.
  apply (crop_to_shape_compose arange_10x10 [6; 6] [3; 4]);
    [reflexivity|reflexivity|wf_shape_tac|nth_bound_tac|nth_bound_tac].
Defined.

Lemma crop_roi_zero_dim_axis_witness :
  crop_roi (mk_ndarray [] (fun _ => 7)) (mk_ndarray [] (fun _ => true)) (AxesInt 3) true
    = Err index_out_of_bounds.
Proof.
  apply (crop_roi_zero_dim_axis (mk_ndarray [] (fun _ => 7)) (mk_ndarray [] (fun _ => true))
           (AxesInt 3) true); [reflexivity|reflexivity|simpl; discriminate].
Defined.

Lemma crop_roi_recrop_noop_witness :
  exists B slices M',
    crop_roi arr_5x5 mask_5x5 AxesNone true = Ok (inr (B, slices)) /\
    index_slices mask_5x5 slices = Ok M' /\
    exists C slices',
      crop_roi B M' AxesNone true = Ok (inr (C, slices')) /\
      (forall a, (a < ndim B)%nat ->
         slice_indices (nth a slices' full_slice) (nth a (shape B) 0) = (0, nth a (shape B) 0)) /\
      array_equal C B.
Proof.
  apply (crop_roi_recrop_noop arr_5x5 mask_5x5); [reflexivity|].
  exists [1; 2]. split; [split; [reflexivity|nth_bound_tac]|reflexivity].
Defined.
